(** * The [lprog] and [mip] wrappers around the CPLEX Python API

    Shallow embedding of the two notebook functions

      - [lprog(A, b, c, u, l, saveOpt, quietOpt)]           (LP/LP_final.ipynb)
      - [mip(A, b, c, u, l, varType, saveOpt, quietOpt)]    (MIP/MIP_final.ipynb)

    Both build a [cplex.Cplex()] problem from dense Python lists, solve it and
    return [(x, obj)], or [([], -1)] when a [CplexError] is caught.

    The [cplex] package is an external collaborator: it is an abstract
    interface here ([Engine]), and the theorems about the wrappers are
    quantified over its implementations.  What the wrappers do to the
    outside world (calls on the problem object, [print], the file written by
    [my_prob.write]) is threaded explicitly through a state-and-exception
    monad, together with a log of the engine calls made. *)

From Stdlib Require Import ZArith QArith_base String Ascii List Lia.
From stdpp Require Import base tactics option list strings pretty gmap.

Local Open Scope string_scope.

(** ** Exceptions *)

(** Exceptions that Python itself or the [cplex] package can raise.
    [CplexError] stands for [cplex.exceptions.CplexError] and its subclasses
    (what [except CplexError] catches); [msg] is [str(exc)]. *)
Inductive py_exn : Type :=
| IndexError
| TypeError
| ValueError
| OtherError (cls : string)
| CplexError (msg : string).

(** What a caller of a wrapper can see raised.  [ShapeError] and
    [TypeTagError] are the validation errors of the documented error
    taxonomy; they are classes of the wrapper layer, so the engine cannot
    raise them. *)
Inductive exn : Type :=
| Py (e : py_exn)
| ShapeError
| TypeTagError.

Inductive result (A : Type) : Type :=
| Return (a : A)
| Raise (e : exn).
Arguments Return {A} a.
Arguments Raise {A} e.

(** ** The engine interface *)

(** [my_prob.objective.sense] *)
Inductive objective_sense : Type := minimize | maximize.

(** The four output channels of a [Cplex] object. *)
Inductive channel : Type :=
| log_stream | error_stream | warning_stream | results_stream.

Section Wrappers.

(** Python numbers (floats and ints) are opaque to the wrappers: they are
    only passed around.  [int] injects an integer literal. *)
Context {num : Type}.
Variable int : Z -> num.

(** One row of [lin_expr]: the two-element list [[ind, val]]. *)
Definition sparse_pair : Type := list nat * list num.

(** The methods of a [cplex.Cplex] object used by the wrappers.  The object is
    mutable, so every method maps the object's state to a new one, and every
    method may raise. *)
Record Engine : Type := {
  prob : Type;
  (** [cplex.Cplex()] *)
  Cplex : py_exn + prob;
  (** [my_prob.objective.set_sense(s)] *)
  set_sense : objective_sense -> prob -> py_exn + prob;
  (** [my_prob.variables.add(obj=, ub=, lb=, types=, names=)] *)
  variables_add :
    list num -> list num -> list num -> option string -> list string ->
    prob -> py_exn + prob;
  (** [my_prob.linear_constraints.add(lin_expr=, senses=, rhs=)] *)
  linear_constraints_add :
    list sparse_pair -> list string -> list num -> prob -> py_exn + prob;
  (** [my_prob.set_log_stream(f)] and its three siblings; [None] is Python's
      [None]. *)
  set_stream : channel -> option string -> prob -> py_exn + prob;
  (** [my_prob.solve()] *)
  solve : prob -> py_exn + prob;
  (** [my_prob.write(filename)]: the text stored in the file. *)
  write : string -> prob -> py_exn + (prob * string);
  (** [my_prob.solution.get_values()] *)
  get_values : prob -> py_exn + (prob * list num);
  (** [my_prob.solution.get_objective_value()] *)
  get_objective_value : prob -> py_exn + (prob * num)
}.

(** ** The observable world *)

(** A method call on the problem object, with its arguments. *)
Inductive call : Type :=
| Cplex_call
| set_sense_call (s : objective_sense)
| variables_add_call (obj ub lb : list num) (types : option string)
    (names : list string)
| linear_constraints_add_call (lin_expr : list sparse_pair)
    (senses : list string) (rhs : list num)
| set_stream_call (ch : channel) (f : option string)
| solve_call
| write_call (filename : string)
| get_values_call
| get_objective_value_call.

(** A logged call: what was called, and the exception it raised if any. *)
Record entry : Type := { what : call; raised : option py_exn }.

(** [calls]: the engine calls made so far, oldest first; [files]: the file
    system; [stdout]: the lines printed by the wrapper itself. *)
Record world : Type := {
  calls : list entry;
  files : gmap string string;
  stdout : list string
}.

Definition initial (fs : gmap string string) : world :=
  {| calls := []; files := fs; stdout := [] |}.

Definition record (c : call) (r : option py_exn) (w : world) : world :=
  {| calls := calls w ++ [{| what := c; raised := r |}];
     files := files w; stdout := stdout w |}.

Definition store (filename text : string) (w : world) : world :=
  {| calls := calls w; files := <[filename := text]> (files w);
     stdout := stdout w |}.

(** ** The monad of wrapper code *)

Definition M (A : Type) : Type := world -> result A * world.

Definition ret {A} (a : A) : M A := fun w => (Return a, w).

Definition raise {A} (e : exn) : M A := fun w => (Raise e, w).

Definition bind {A B} (m : M A) (k : A -> M B) : M B :=
  fun w =>
    match m w with
    | (Return a, w') => k a w'
    | (Raise e, w') => (Raise e, w')
    end.

Notation "'let*' x ':=' m 'in' k" := (bind m (fun x => k))
  (at level 10, x pattern, m at level 100, k at level 200).

(** [try: body except CplexError as exc: handler(str(exc))] *)
Definition try_except_CplexError {A} (body : M A) (handler : string -> M A)
  : M A :=
  fun w =>
    match body w with
    | (Raise (Py (CplexError msg)), w') => handler msg w'
    | other => other
    end.

(** [print(s)] *)
Definition print (s : string) : M unit :=
  fun w =>
    (Return tt,
     {| calls := calls w; files := files w; stdout := stdout w ++ [s] |}).

(** [l[i]] *)
Definition subscript {X} (l : list X) (i : nat) : M X :=
  match l !! i with
  | Some x => ret x
  | None => raise (Py IndexError)
  end.

(** [range(n)] *)
Definition range (n : nat) : list nat := seq 0 n.

(** [[f(j) for j in js]] where [f] may raise. *)
Fixpoint comprehension {X Y} (f : X -> M Y) (js : list X) : M (list Y) :=
  match js with
  | [] => ret []
  | j :: js' =>
      let* y := f j in
      let* ys := comprehension f js' in
      ret (y :: ys)
  end.

(** [str(i)] for a non-negative integer. *)
Definition str (i : nat) : string := pretty i.

(** [s * n] on strings. *)
Fixpoint str_mul (s : string) (n : nat) : string :=
  match n with
  | O => ""
  | S n' => s +:+ str_mul s n'
  end.

Variable E : Engine.

(** A method call: run it on the engine and log it. *)
Definition invoke {A} (c : call) (r : py_exn + A) : M A :=
  fun w =>
    match r with
    | inr a => (Return a, record c None w)
    | inl e => (Raise (Py e), record c (Some e) w)
    end.

(** [my_prob.write(filename)]: on return the file holds the engine's text. *)
Definition invoke_write (filename : string) (p : prob E) : M (prob E) :=
  fun w =>
    match write E filename p with
    | inr (p', text) =>
        (Return p', store filename text (record (write_call filename) None w))
    | inl e => (Raise (Py e), record (write_call filename) (Some e) w)
    end.

(** ** The two wrappers *)

(** LP/LP_final.ipynb, [def lprog(A, b, c, u, l, saveOpt, quietOpt)]. *)
Definition lprog (A : list (list num)) (b c u l : list num)
    (saveOpt quietOpt : bool) : M (list num * num) :=
  (* noRow, noCol = len(A), len(A[0]) *)
  let noRow := length A in
  let* A0 := subscript A 0 in
  let noCol := length A0 in
  (* my_prob = cplex.Cplex() *)
  let* my_prob := invoke Cplex_call (Cplex E) in
  (* my_prob.objective.set_sense(my_prob.objective.sense.maximize) *)
  let* my_prob :=
    invoke (set_sense_call maximize) (set_sense E maximize my_prob) in
  (* my_colnames = ["x"+str(i) for i in range(noCol)] *)
  let my_colnames := map (fun i => "x" +:+ str i) (range noCol) in
  (* my_prob.variables.add(obj=c, ub=u, lb=l, names=my_colnames) *)
  let* my_prob :=
    invoke (variables_add_call c u l None my_colnames)
           (variables_add E c u l None my_colnames my_prob) in
  (* A = [[[i for i in range(noCol)], A[j]] for j in range(noRow)] *)
  let* A :=
    comprehension
      (fun j =>
         let* Aj := subscript A j in
         ret (map (fun i => i) (range noCol), Aj))
      (range noRow) in
  (* my_prob.linear_constraints.add(lin_expr=A, senses=["L" * noRow], rhs=b) *)
  let* my_prob :=
    invoke (linear_constraints_add_call A [str_mul "L" noRow] b)
           (linear_constraints_add E A [str_mul "L" noRow] b my_prob) in
  (* if quietOpt: ... *)
  let* my_prob :=
    if quietOpt then
      let* my_prob :=
        invoke (set_stream_call log_stream None)
               (set_stream E log_stream None my_prob) in
      let* my_prob :=
        invoke (set_stream_call error_stream None)
               (set_stream E error_stream None my_prob) in
      let* my_prob :=
        invoke (set_stream_call warning_stream None)
               (set_stream E warning_stream None my_prob) in
      let* my_prob :=
        invoke (set_stream_call results_stream None)
               (set_stream E results_stream None my_prob) in
      ret my_prob
    else ret my_prob in
  try_except_CplexError
    ((* my_prob.solve() *)
     let* my_prob := invoke solve_call (solve E my_prob) in
     (* if saveOpt: my_prob.write("lprog.lp"); print('LP saved as lprog.lp') *)
     let* my_prob :=
       if saveOpt then
         let* my_prob := invoke_write "lprog.lp" my_prob in
         let* _ := print "LP saved as lprog.lp" in
         ret my_prob
       else ret my_prob in
     (* x = my_prob.solution.get_values() *)
     let* (my_prob, x) := invoke get_values_call (get_values E my_prob) in
     (* obj = my_prob.solution.get_objective_value() *)
     let* (my_prob, obj) :=
       invoke get_objective_value_call (get_objective_value E my_prob) in
     (* return x, obj *)
     ret (x, obj))
    (fun exc =>
       (* print(exc); return [], -1 *)
       let* _ := print exc in
       ret ([], int (-1)%Z)).

(** MIP/MIP_final.ipynb,
    [def mip(A, b, c, u, l, varType, saveOpt, quietOpt)]. *)
Definition mip (A : list (list num)) (b c u l : list num) (varType : string)
    (saveOpt quietOpt : bool) : M (list num * num) :=
  (* noRow, noCol = len(A), len(A[0]) *)
  let noRow := length A in
  let* A0 := subscript A 0 in
  let noCol := length A0 in
  (* my_prob = cplex.Cplex() *)
  let* my_prob := invoke Cplex_call (Cplex E) in
  (* my_prob.objective.set_sense(my_prob.objective.sense.maximize) *)
  let* my_prob :=
    invoke (set_sense_call maximize) (set_sense E maximize my_prob) in
  (* my_colnames = ["x"+str(i) for i in range(noCol)] *)
  let my_colnames := map (fun i => "x" +:+ str i) (range noCol) in
  (* my_prob.variables.add(obj=c, ub=u, lb=l, types=varType,
                           names=my_colnames) *)
  let* my_prob :=
    invoke (variables_add_call c u l (Some varType) my_colnames)
           (variables_add E c u l (Some varType) my_colnames my_prob) in
  (* A = [[[i for i in range(noCol)], A[j]] for j in range(noRow)] *)
  let* A :=
    comprehension
      (fun j =>
         let* Aj := subscript A j in
         ret (map (fun i => i) (range noCol), Aj))
      (range noRow) in
  (* my_prob.linear_constraints.add(lin_expr=A, senses=["L" * noRow], rhs=b) *)
  let* my_prob :=
    invoke (linear_constraints_add_call A [str_mul "L" noRow] b)
           (linear_constraints_add E A [str_mul "L" noRow] b my_prob) in
  (* if quietOpt: ... *)
  let* my_prob :=
    if quietOpt then
      let* my_prob :=
        invoke (set_stream_call log_stream None)
               (set_stream E log_stream None my_prob) in
      let* my_prob :=
        invoke (set_stream_call error_stream None)
               (set_stream E error_stream None my_prob) in
      let* my_prob :=
        invoke (set_stream_call warning_stream None)
               (set_stream E warning_stream None my_prob) in
      let* my_prob :=
        invoke (set_stream_call results_stream None)
               (set_stream E results_stream None my_prob) in
      ret my_prob
    else ret my_prob in
  try_except_CplexError
    ((* my_prob.solve() *)
     let* my_prob := invoke solve_call (solve E my_prob) in
     (* if saveOpt: my_prob.write("mip.lp"); print('LP saved as mip.lp') *)
     let* my_prob :=
       if saveOpt then
         let* my_prob := invoke_write "mip.lp" my_prob in
         let* _ := print "LP saved as mip.lp" in
         ret my_prob
       else ret my_prob in
     (* x = my_prob.solution.get_values() *)
     let* (my_prob, x) := invoke get_values_call (get_values E my_prob) in
     (* obj = my_prob.solution.get_objective_value() *)
     let* (my_prob, obj) :=
       invoke get_objective_value_call (get_objective_value E my_prob) in
     (* return x, obj *)
     ret (x, obj))
    (fun exc =>
       (* print(exc); return [], -1 *)
       let* _ := print exc in
       ret ([], int (-1)%Z)).

(** The two wrappers are one body that differs in three places: the [types]
    argument of [variables.add], the file name and the line printed after
    writing.  [wrapper] is that body; it serves the proofs only. *)
Definition wrapper (types : option string) (filename saved : string)
    (A : list (list num)) (b c u l : list num) (saveOpt quietOpt : bool)
  : M (list num * num) :=
  (* noRow, noCol = len(A), len(A[0]) *)
  let noRow := length A in
  let* A0 := subscript A 0 in
  let noCol := length A0 in
  (* my_prob = cplex.Cplex() *)
  let* my_prob := invoke Cplex_call (Cplex E) in
  (* my_prob.objective.set_sense(my_prob.objective.sense.maximize) *)
  let* my_prob :=
    invoke (set_sense_call maximize) (set_sense E maximize my_prob) in
  (* my_colnames = ["x"+str(i) for i in range(noCol)] *)
  let my_colnames := map (fun i => "x" +:+ str i) (range noCol) in
  (* my_prob.variables.add(obj=c, ub=u, lb=l, [types=types,]
                           names=my_colnames) *)
  let* my_prob :=
    invoke (variables_add_call c u l types my_colnames)
           (variables_add E c u l types my_colnames my_prob) in
  (* A = [[[i for i in range(noCol)], A[j]] for j in range(noRow)] *)
  let* A :=
    comprehension
      (fun j =>
         let* Aj := subscript A j in
         ret (map (fun i => i) (range noCol), Aj))
      (range noRow) in
  (* my_prob.linear_constraints.add(lin_expr=A, senses=["L" * noRow], rhs=b) *)
  let* my_prob :=
    invoke (linear_constraints_add_call A [str_mul "L" noRow] b)
           (linear_constraints_add E A [str_mul "L" noRow] b my_prob) in
  (* if quietOpt: ... *)
  let* my_prob :=
    if quietOpt then
      let* my_prob :=
        invoke (set_stream_call log_stream None)
               (set_stream E log_stream None my_prob) in
      let* my_prob :=
        invoke (set_stream_call error_stream None)
               (set_stream E error_stream None my_prob) in
      let* my_prob :=
        invoke (set_stream_call warning_stream None)
               (set_stream E warning_stream None my_prob) in
      let* my_prob :=
        invoke (set_stream_call results_stream None)
               (set_stream E results_stream None my_prob) in
      ret my_prob
    else ret my_prob in
  try_except_CplexError
    ((* my_prob.solve() *)
     let* my_prob := invoke solve_call (solve E my_prob) in
     (* if saveOpt: my_prob.write(filename); print(saved) *)
     let* my_prob :=
       if saveOpt then
         let* my_prob := invoke_write filename my_prob in
         let* _ := print saved in
         ret my_prob
       else ret my_prob in
     (* x = my_prob.solution.get_values() *)
     let* (my_prob, x) := invoke get_values_call (get_values E my_prob) in
     (* obj = my_prob.solution.get_objective_value() *)
     let* (my_prob, obj) :=
       invoke get_objective_value_call (get_objective_value E my_prob) in
     (* return x, obj *)
     ret (x, obj))
    (fun exc =>
       (* print(exc); return [], -1 *)
       let* _ := print exc in
       ret ([], int (-1)%Z)).


End Wrappers.

Arguments sparse_pair : clear implicits.
Arguments Engine : clear implicits.
Arguments call : clear implicits.
Arguments entry : clear implicits.
Arguments world : clear implicits.
Arguments M : clear implicits.

Arguments range : simpl never.
Arguments str_mul : simpl never.
Arguments comprehension : simpl never.

(** ** Observing one call of a wrapper *)

Section Observations.

Context {num X : Type}.
Implicit Types (m : M num X) (fs : gmap string string).

(** The value returned, or the exception that reaches the caller. *)
Definition outcome m fs : result X := fst (m (initial fs)).

(** The engine calls made, in order. *)
Definition log m fs : list (entry num) := calls (snd (m (initial fs))).

(** The file system after the call. *)
Definition files_after m fs : gmap string string := files (snd (m (initial fs))).

(** The lines the wrapper printed. *)
Definition printed m fs : list string := stdout (snd (m (initial fs))).

End Observations.

(** ** Reading the arguments the way the engine does *)

(** [senses] may be a string or a list of strings: the engine joins the items
    and reads one character per constraint. *)
Definition row_senses (senses : list string) : list ascii :=
  list_ascii_of_string (String.concat "" senses).

(** The (column, coefficient) pairs denoted by a row [[ind, val]]. *)
Definition pairs {num} (row : sparse_pair num) : list (nat * num) :=
  zip (fst row) (snd row).

(** ** Classifying calls *)

(** Calls made before the [try] statement, while the model is built. *)
Definition building {num} (c : call num) : bool :=
  match c with
  | Cplex_call | set_sense_call _ | variables_add_call _ _ _ _ _
  | linear_constraints_add_call _ _ _ | set_stream_call _ _ => true
  | _ => false
  end.

(** Calls made inside the [try] statement. *)
Definition in_try {num} (c : call num) : bool := negb (building c).

Definition is_solve {num} (c : call num) : bool :=
  match c with solve_call => true | _ => false end.

Definition is_write {num} (c : call num) : bool :=
  match c with write_call _ => true | _ => false end.

Definition is_variables_add {num} (c : call num) : bool :=
  match c with variables_add_call _ _ _ _ _ => true | _ => false end.

Definition is_CplexError (e : py_exn) : bool :=
  match e with CplexError _ => true | _ => false end.

(** How often [solve] was called. *)
Definition solve_calls {num} (l : list (entry num)) : nat :=
  length (List.filter (fun en => is_solve (what en)) l).

(** A successful call, as logged. *)
Definition returned {num} (c : call num) : entry num :=
  {| what := c; raised := None |}.

(** ** Input conditions named by the specification *)

(** Some row is not as long as the first one, or the row count differs from
    the length of the right-hand side, or a vector is not as long as the
    first row. *)
Definition mismatched {num} (A : list (list num)) (b c u l : list num) : Prop :=
  let C := length (default [] (head A)) in
  (exists row, row ∈ A /\ length row <> C) \/
  length A <> length b \/
  length c <> C \/ length u <> C \/ length l <> C.

(** The type tags of the engine: continuous, integer, binary. *)
Definition valid_tag (t : ascii) : bool :=
  (Ascii.eqb t "C" || Ascii.eqb t "I" || Ascii.eqb t "B")%bool.

(** The tag sequence is not as long as the first row, or holds a character
    that is no tag. *)
Definition bad_type_tags {num} (A : list (list num)) (varType : string) : Prop :=
  String.length varType <> length (default [] (head A)) \/
  forallb valid_tag (list_ascii_of_string varType) = false.

(** All rows have [C] entries. *)
Definition well_shaped {num} (C : nat) (A : list (list num)) : Prop :=
  Forall (fun row => length row = C) A.

(** ** Properties of one call *)

Section Statements.

Context {num X : Type}.
Implicit Types (m : M num X) (fs : gmap string string).

(** Neither [solve] nor [write] was called. *)
Definition never_solves_or_writes m fs : Prop :=
  forall en, en ∈ log m fs ->
    is_solve (what en) = false /\ is_write (what en) = false.

(** An exception raised by the engine while the model is built reaches the
    caller as it is; nothing was solved and no file was written. *)
Definition building_failure_propagates m fs : Prop :=
  forall en e,
    en ∈ log m fs -> building (what en) = true -> raised en = Some e ->
    outcome m fs = Raise (Py e) /\
    never_solves_or_writes m fs /\
    files_after m fs = fs.

(** The engine raised [CplexError msg] from a call inside the [try]
    statement: this is how it reports that the model has no solution. *)
Definition reports_CplexError_in_try m fs (msg : string) : Prop :=
  exists en,
    en ∈ log m fs /\ in_try (what en) = true /\
    raised en = Some (CplexError msg).

(** Whenever [solve] returned, the next call is [write filename]; if that
    call returned too, the file system differs from the initial one exactly
    in that file. *)
Definition writes_right_after_solve (filename : string) m fs : Prop :=
  forall i,
    log m fs !! i = Some (returned solve_call) ->
    exists r,
      log m fs !! S i = Some {| what := write_call filename; raised := r |} /\
      (r = None -> exists text, files_after m fs = <[filename := text]> fs).

(** [write] was not called and the file system is as it was. *)
Definition writes_nothing m fs : Prop :=
  (forall en, en ∈ log m fs -> is_write (what en) = false) /\
  files_after m fs = fs.

(** Every exception raised by an engine call either reaches the caller as it
    is, or is a [CplexError] raised inside the [try] statement, printed and
    turned into the value [sentinel]. *)
Definition raised_is_propagated_or_caught (sentinel : X) m fs : Prop :=
  forall en e,
    en ∈ log m fs -> raised en = Some e ->
    outcome m fs = Raise (Py e) \/
    (exists msg,
        e = CplexError msg /\ in_try (what en) = true /\
        outcome m fs = Return sentinel /\ last (printed m fs) = Some msg).

(** The vectors reach the engine as the caller gave them, whatever their
    lengths: [c], [u], [l] in [variables.add], and in
    [linear_constraints.add] the rows of [A] and [b]. *)
Definition hands_over_unchanged (A : list (list num)) (b c u l : list num)
    m fs : Prop :=
  forall en,
    en ∈ log m fs ->
    match what en with
    | variables_add_call obj ub lb _ _ => obj = c /\ ub = u /\ lb = l
    | linear_constraints_add_call lin_expr _ rhs =>
        map snd lin_expr = A /\ rhs = b
    | _ => True
    end.

(** An exception that reaches the caller was raised by the last engine
    call. *)
Definition raises_only_from_engine m fs : Prop :=
  forall e,
    outcome m fs = Raise e ->
    exists cl pe,
      last (log m fs) = Some {| what := cl; raised := Some pe |} /\ e = Py pe.

End Statements.

(** [lin_expr] is the dense translation of the [C]-column matrix [A]: one
    row per matrix row, the [j]-th one pairing the columns [0..C-1], in
    order, with the entries of [A[j]], zeros included. *)
Definition dense_rows {num} (C : nat) (A : list (list num))
    (lin_expr : list (sparse_pair num)) : Prop :=
  length lin_expr = length A /\
  forall j row,
    A !! j = Some row ->
    lin_expr !! j = Some (range C, row) /\
    length (pairs (range C, row)) = C /\
    forall i, i < C ->
      exists a, row !! i = Some a /\ pairs (range C, row) !! i = Some (i, a).

(** ** The order of the engine calls *)

Section Protocol.

Context {num : Type}.

(** The four stream setters, in the order of the source. *)
Definition quiet_calls : list (call num) :=
  [set_stream_call log_stream None; set_stream_call error_stream None;
   set_stream_call warning_stream None; set_stream_call results_stream None].

(** The engine calls of one run in which no call raises, read off the body
    of the wrappers from top to bottom.  [types] is the [types] argument of
    [variables.add] ([None] in [lprog]). *)
Definition script (types : option string) (filename : string)
    (A : list (list num)) (b c u l : list num) (saveOpt quietOpt : bool)
  : list (call num) :=
  match A !! 0 with
  | None => []
  | Some row0 =>
      [Cplex_call;
       set_sense_call maximize;
       variables_add_call c u l types
         (map (fun i => "x" +:+ str i) (range (length row0)));
       linear_constraints_add_call
         (map (fun row => (range (length row0), row)) A)
         [str_mul "L" (length A)] b]
      ++ (if quietOpt then quiet_calls else [])
      ++ [solve_call]
      ++ (if saveOpt then [write_call filename] else [])
      ++ [get_values_call; get_objective_value_call]
  end.

(** The [i]-th engine call of the run is [cl], unless an earlier call
    raised. *)
Definition called_unless_raised (l : list (entry num)) (i : nat)
    (cl : call num) : Prop :=
  (exists r, l !! i = Some {| what := cl; raised := r |}) \/
  (exists j en e, j < i /\ l !! j = Some en /\ raised en = Some e).

(** Every call of the sequence [cs] is made in its turn, unless an earlier
    call raised. *)
Definition runs_through {X} (cs : list (call num)) (m : M num X)
    (fs : gmap string string) : Prop :=
  forall i cl, cs !! i = Some cl -> called_unless_raised (log m fs) i cl.

(** A [write] that raised left no file; when it raised a [CplexError], the
    value [sentinel] is returned. *)
Definition failed_write_leaves_no_file {X} (sentinel : X) (m : M num X)
    (fs : gmap string string) : Prop :=
  forall en e,
    en ∈ log m fs -> is_write (what en) = true -> raised en = Some e ->
    files_after m fs = fs /\
    (forall msg, e = CplexError msg -> outcome m fs = Return sentinel).

(** When [solve] is called, the model it is called on was built by calls
    that returned: the second call set the sense [maximize], the third
    declared the variables [c], [u], [l] with the tags [types], and the
    fourth added one row for each row of [A], with right-hand side [b] and a
    [senses] argument that reads as one ["L"] for each row. *)
Definition model_at_solve {X} (types : option string)
    (A : list (list num)) (b c u l : list num) (m : M num X)
    (fs : gmap string string) : Prop :=
  forall en,
    en ∈ log m fs -> what en = solve_call ->
    log m fs !! 1 = Some (returned (set_sense_call maximize)) /\
    (exists names,
        log m fs !! 2 = Some (returned (variables_add_call c u l types names))) /\
    (exists lin_expr senses,
        log m fs !! 3
        = Some (returned (linear_constraints_add_call lin_expr senses b)) /\
        map snd lin_expr = A /\
        row_senses senses = replicate (length A) "L"%char).

Definition has_returned (en : entry num) : bool :=
  match raised en with None => true | Some _ => false end.

(** [write] was called and returned. *)
Definition write_returned (l : list (entry num)) : bool :=
  existsb (fun en => is_write (what en) && has_returned en) l.

(** The message of the [CplexError] that the [except] clause caught, if it
    caught one: the last call was made inside the [try] statement and raised
    it. *)
Definition caught (l : list (entry num)) : option string :=
  match last l with
  | Some {| what := cl; raised := Some (CplexError msg) |} =>
      if in_try cl then Some msg else None
  | _ => None
  end.

(** The world [w] after a run that, started in the initial world with no
    files, ended in [d]: the calls and the printed lines of [d] are appended,
    and the files of [d] are added to those of [w], replacing files of the
    same name. *)
Definition after (w d : world num) : world num :=
  {| calls := calls w ++ calls d;
     files := files d ∪ files w;
     stdout := stdout w ++ stdout d |}.

(** [m] does in every world what it does in the initial world with no
    files. *)
Definition regular {X} (m : M num X) : Prop :=
  forall w, m w = (fst (m (initial ∅)), after w (snd (m (initial ∅)))).

End Protocol.

(** ** Engines whose streams are presentation only *)

(** Two results of an engine method agree: the same exception, or related
    values. *)
Definition agree {X} (R : X -> X -> Prop) (r1 r2 : py_exn + X) : Prop :=
  match r1, r2 with
  | inl e1, inl e2 => e1 = e2
  | inr x1, inr x2 => R x1 x2
  | _, _ => False
  end.

(** [sim] relates two states of the problem object that differ at most in
    their output streams: setting a stream stays within [sim] and does not
    raise, and no other method used by the wrappers tells related states
    apart. *)
Record presentation_only {num} (E : Engine num)
    (sim : prob E -> prob E -> Prop) : Prop := {
  sim_refl : forall p, sim p p;
  sim_set_stream : forall ch f p q,
    sim p q -> exists q', set_stream E ch f q = inr q' /\ sim p q';
  sim_solve : forall p q, sim p q -> agree sim (solve E p) (solve E q);
  sim_write : forall name p q,
    sim p q ->
    agree (fun x y => sim (fst x) (fst y) /\ snd x = snd y)
          (write E name p) (write E name q);
  sim_get_values : forall p q,
    sim p q ->
    agree (fun x y => sim (fst x) (fst y) /\ snd x = snd y)
          (get_values E p) (get_values E q);
  sim_get_objective_value : forall p q,
    sim p q ->
    agree (fun x y => sim (fst x) (fst y) /\ snd x = snd y)
          (get_objective_value E p) (get_objective_value E q)
}.

(** ** Engines that answer for the model they were given *)

(** [declares p obj n]: the problem [p] has [n] variables, declared with the
    objective coefficients [obj].  [within_tolerance obj x v]: [v] is the sum
    of the [obj[i] * x[i]], up to the tolerance of the engine.  The contract:
    [variables.add] on a new problem declares what it is given, the other
    calls made while the model is built and solved keep the declaration, and
    the solution queried has one value for each declared variable and an
    objective value within tolerance of those values. *)
Record solution_contract {num} (E : Engine num)
    (within_tolerance : list num -> list num -> num -> Prop)
    (declares : prob E -> list num -> nat -> Prop) : Prop := {
  declares_variables : forall p0 sense p1 obj ub lb types names p2,
    Cplex E = inr p0 ->
    set_sense E sense p0 = inr p1 ->
    variables_add E obj ub lb types names p1 = inr p2 ->
    declares p2 obj (length names);
  declares_constraints : forall p lin_expr senses rhs p' obj n,
    declares p obj n ->
    linear_constraints_add E lin_expr senses rhs p = inr p' ->
    declares p' obj n;
  declares_set_stream : forall p ch f p' obj n,
    declares p obj n -> set_stream E ch f p = inr p' -> declares p' obj n;
  declares_solve : forall p p' obj n,
    declares p obj n -> solve E p = inr p' -> declares p' obj n;
  declares_write : forall p name p' text obj n,
    declares p obj n -> write E name p = inr (p', text) -> declares p' obj n;
  declared_solution : forall p obj n p' x,
    declares p obj n ->
    get_values E p = inr (p', x) ->
    length x = n /\
    forall p'' v,
      get_objective_value E p' = inr (p'', v) -> within_tolerance obj x v
}.

(** ** A stand-in engine for concrete runs *)

(** The engine of the notebooks is not part of the repository.  For concrete
    runs the stand-in below checks argument lengths (lists of different
    non-zero lengths are rejected with a [CplexError]) and
    replays a recorded solution: [Some (x, obj)] when the recorded run had a
    solution, [None] when it printed error 1217.  With [fault = Some e] its
    [solve] raises [e]. *)
Module Replay.

Record state : Type := {
  silenced : list channel;
  columns : nat;
  rows : nat;
  solved : bool
}.

Definition fresh : state :=
  {| silenced := []; columns := 0; rows := 0; solved := false |}.

(** All non-empty arguments have the same length. *)
Definition same_lengths (lens : list nat) : bool :=
  match filter (fun n => negb (Nat.eqb n 0)) lens with
  | [] => true
  | n :: ns => forallb (Nat.eqb n) ns
  end.

Definition inconsistent : py_exn := CplexError "inconsistent arguments".

Definition no_solution : py_exn :=
  CplexError "CPLEX Error  1217: No solution exists.".

Definition tags_length (types : option string) : nat :=
  match types with Some t => String.length t | None => 0 end.

Definition engine {num} (fault : option py_exn)
    (recorded : option (list num * num)) (text : string) : Engine num :=
  {| prob := state;
     Cplex := inr fresh;
     set_sense := fun _ p => inr p;
     variables_add := fun obj ub lb types names p =>
       if same_lengths
            [length obj; length ub; length lb; tags_length types; length names]
       then inr {| silenced := silenced p;
                   columns := columns p + length names;
                   rows := rows p; solved := solved p |}
       else inl inconsistent;
     linear_constraints_add := fun lin_expr senses rhs p =>
       if (same_lengths
             [length lin_expr; length (row_senses senses); length rhs]
           && forallb (fun r => Nat.eqb (length (fst r)) (length (snd r)))
                      lin_expr)%bool
       then inr {| silenced := silenced p; columns := columns p;
                   rows := rows p + length lin_expr; solved := solved p |}
       else inl inconsistent;
     set_stream := fun ch _ p =>
       inr {| silenced := ch :: silenced p; columns := columns p;
              rows := rows p; solved := solved p |};
     solve := fun p =>
       match fault with
       | Some e => inl e
       | None =>
           inr {| silenced := silenced p; columns := columns p;
                  rows := rows p; solved := true |}
       end;
     write := fun _ p => inr (p, text);
     get_values := fun p =>
       match recorded with
       | Some (x, _) => inr (p, x)
       | None => inl no_solution
       end;
     get_objective_value := fun p =>
       match recorded with
       | Some (_, obj) => inr (p, obj)
       | None => inl no_solution
       end |}.

(** [E] made to accept whatever arguments it is handed while the model is
    built. *)
Definition lenient {num} (E : Engine num) : Engine num :=
  {| prob := prob E;
     Cplex := Cplex E;
     set_sense := set_sense E;
     variables_add := fun _ _ _ _ _ p => inr p;
     linear_constraints_add := fun _ _ _ p => inr p;
     set_stream := set_stream E;
     solve := solve E;
     write := write E;
     get_values := get_values E;
     get_objective_value := get_objective_value E |}.

(** [E] with a [write] that raises [e] (a file that cannot be opened). *)
Definition failing_write {num} (e : py_exn) (E : Engine num) : Engine num :=
  {| prob := prob E;
     Cplex := Cplex E;
     set_sense := set_sense E;
     variables_add := variables_add E;
     linear_constraints_add := linear_constraints_add E;
     set_stream := set_stream E;
     solve := solve E;
     write := fun _ _ => inl e;
     get_values := get_values E;
     get_objective_value := get_objective_value E |}.

(** States that differ at most in the silenced channels. *)
Definition sim (p q : state) : Prop :=
  columns p = columns q /\ rows p = rows q /\ solved p = solved q.

End Replay.

(** ** A stand-in engine that keeps the model *)

(** Not a solver: it records the variables declared and answers with their
    lower bounds and the objective value of that point.  It honours
    [solution_contract] with an exact objective. *)
Module Corner.

Record state : Type := {
  objective : list Q;
  lower : list Q;
  columns : nat
}.

Definition fresh : state := {| objective := []; lower := []; columns := 0 |}.

(** The sum of the [a[i] * x[i]]. *)
Definition dot (a x : list Q) : Q := foldr Qplus 0%Q (zip_with Qmult a x).

(** The point answered: the lower bounds, one for each variable. *)
Definition point (p : state) : list Q := resize (columns p) 0%Q (lower p).

Definition engine (text : string) : Engine Q :=
  {| prob := state;
     Cplex := inr fresh;
     set_sense := fun _ p => inr p;
     variables_add := fun obj ub lb types names p =>
       inr {| objective := objective p ++ obj;
              lower := lower p ++ lb;
              columns := columns p + length names |};
     linear_constraints_add := fun _ _ _ p => inr p;
     set_stream := fun _ _ p => inr p;
     solve := fun p => inr p;
     write := fun _ p => inr (p, text);
     get_values := fun p => inr (p, point p);
     get_objective_value := fun p => inr (p, dot (objective p) (point p)) |}.

Definition declares (p : state) (obj : list Q) (n : nat) : Prop :=
  objective p = obj /\ columns p = n.

Definition exact (obj x : list Q) (v : Q) : Prop := v = dot obj x.

End Corner.

(** ** The data of the notebooks *)

Module Notebook.

Local Open Scope Q_scope.

Definition A : list (list Q) := [[-1; 1; 1]; [1; -3; 1]].
Definition b : list Q := [20; 30].
Definition c : list Q := [1; 2; 3].
(** [cplex.infinity] is [1e20]. *)
Definition infinity : Q := 100000000000000000000.
Definition u : list Q := [40; infinity; infinity].
Definition l : list Q := [0; 0; 0].
Definition varType : string := "CCI".
(** The right-hand side of the infeasible cell. *)
Definition b_infeasible : list Q := [-99999; -999999].

(** The row list handed to the engine for [A]. *)
Definition lin_expr_A : list (sparse_pair Q) :=
  [([0%nat; 1%nat; 2%nat], [-1; 1; 1]); ([0%nat; 1%nat; 2%nat], [1; -3; 1])].

(** The solutions printed by the notebooks. *)
Definition lprog_recorded : list Q * Q := ([40; 35 # 2; 85 # 2], 405 # 2).
Definition mip_recorded : list Q * Q := ([40; 18; 42], 202).

(** The text of the written model is the engine's own business. *)
Definition lp_text : string := "Maximize".

Definition feasible_lp : Engine Q :=
  Replay.engine None (Some lprog_recorded) lp_text.
Definition feasible_mip : Engine Q :=
  Replay.engine None (Some mip_recorded) lp_text.
Definition infeasible : Engine Q := Replay.engine None None lp_text.
(** An engine whose [solve] fails with an exception that is no [CplexError]. *)
Definition broken : Engine Q :=
  Replay.engine (Some TypeError) (Some lprog_recorded) lp_text.

(** A right-hand side with one entry too few, and tag sequences that are too
    short or hold a character that is no tag. *)
Definition b_short : list Q := [20].
Definition varType_short : string := "CC".
Definition varType_unknown : string := "CXI".

(** The engines of the recorded runs, made to accept any arguments. *)
Definition accepting_lp : Engine Q := Replay.lenient feasible_lp.
Definition accepting_mip : Engine Q := Replay.lenient feasible_mip.

(** The engine of the recorded feasible run, with a file that cannot be
    written. *)
Definition write_error : py_exn :=
  CplexError "CPLEX Error  1422: Could not open file for writing.".
Definition unwritable_lp : Engine Q := Replay.failing_write write_error feasible_lp.
Definition unwritable_mip : Engine Q :=
  Replay.failing_write write_error feasible_mip.

Definition corner : Engine Q := Corner.engine lp_text.

(** A matrix whose second row is shorter than the first. *)
Definition A_ragged : list (list Q) := [[1; 2; 3]; [4]].

End Notebook.

(** * Properties *)

(** ** Running the monad *)

Section Running.

Context {num : Type}.
Implicit Types (A : list (list num)) (w : world num).

Lemma comprehension_cons {X Y} (f : X -> M num Y) (j : X) (js : list X) :
  comprehension f (j :: js)
  = bind (f j) (fun y => bind (comprehension f js) (fun ys => ret (y :: ys))).
Proof. reflexivity. Qed.

(** The list comprehension over the rows never raises: every [j] of
    [range(len(A))] is a valid subscript. *)
Lemma comprehension_rows_from (pre A : list (list num)) (C : nat) w :
  comprehension
    (fun j =>
       bind (subscript (pre ++ A) j)
            (fun Aj => ret (map (fun i => i) (range C), Aj)))
    (seq (length pre) (length A)) w
  = (Return (map (fun row => (range C, row)) A), w).
Proof.
  revert pre. induction A as [|row A IH]; intros pre; [reflexivity|].
  cbn [length seq map]. rewrite comprehension_cons.
  assert (Hrow : forall k : list num -> M num (list nat * list num),
             bind (subscript (pre ++ row :: A)%list (length pre)) k w = k row w).
  { intros k. unfold bind, subscript.
    rewrite lookup_app_r by lia. rewrite Nat.sub_diag. reflexivity. }
  unfold bind at 1. rewrite Hrow. unfold ret at 1.
  replace (pre ++ row :: A)%list with ((pre ++ [row]) ++ A)%list
    by (rewrite <- app_assoc; reflexivity).
  replace (S (length pre)) with (length (pre ++ [row])%list)
    by (rewrite length_app; simpl; lia).
  unfold bind at 1. rewrite IH. unfold ret. rewrite map_id. reflexivity.
Qed.

Lemma comprehension_rows A (C n : nat) w :
  n = length A ->
  comprehension
    (fun j =>
       bind (subscript A j)
            (fun Aj => ret (map (fun i => i) (range C), Aj)))
    (range n) w
  = (Return (map (fun row => (range C, row)) A), w).
Proof. intros ->. apply (comprehension_rows_from [] A C w). Qed.

Lemma bind_run {X Y} (m : M num X) (k : X -> M num Y) w :
  bind m k w
  = match m w with
    | (Return a, w') => k a w'
    | (Raise e, w') => (Raise e, w')
    end.
Proof. reflexivity. Qed.

Lemma subscript_run {X} (l : list X) (i : nat) w :
  subscript l i w
  = match l !! i with
    | Some x => (Return x, w)
    | None => (Raise (Py IndexError), w)
    end.
Proof. unfold subscript. destruct (l !! i); reflexivity. Qed.

Lemma bind_comprehension_rows {Y} A (C n : nat)
    (k : list (sparse_pair num) -> M num Y) w :
  n = length A ->
  bind (comprehension
          (fun j =>
             bind (subscript A j)
                  (fun Aj => ret (map (fun i => i) (range C), Aj)))
          (range n)) k w
  = k (map (fun row => (range C, row)) A) w.
Proof. intros Hn. rewrite bind_run, comprehension_rows by exact Hn. reflexivity. Qed.

Lemma try_bind {X Y} (m : M num X) (k : X -> M num Y)
    (h : string -> M num Y) w :
  try_except_CplexError (bind m k) h w
  = match m w with
    | (Return a, w') => try_except_CplexError (k a) h w'
    | (Raise (Py (CplexError msg)), w') => h msg w'
    | (Raise e, w') => (Raise e, w')
    end.
Proof.
  unfold try_except_CplexError, bind.
  destruct (m w) as [[a|[[]| |]] w']; reflexivity.
Qed.

Lemma try_ret {Y} (y : Y) (h : string -> M num Y) w :
  try_except_CplexError (ret y) h w = (Return y, w).
Proof. reflexivity. Qed.

Lemma map_snd_rows A (C : nat) :
  map snd (map (fun row : list num => (range C, row)) A) = A.
Proof. induction A as [|row A IH]; simpl; [|rewrite IH]; reflexivity. Qed.

Lemma list_ascii_str_mul_L (n : nat) :
  list_ascii_of_string (str_mul "L" n) = replicate n "L"%char.
Proof.
  induction n as [|n IH]; [reflexivity|].
  change (str_mul "L" (S n)) with (String "L" (str_mul "L" n)).
  simpl. rewrite IH. reflexivity.
Qed.

Lemma row_senses_L (n : nat) :
  row_senses [str_mul "L" n] = replicate n "L"%char.
Proof. unfold row_senses. simpl. apply list_ascii_str_mul_L. Qed.

End Running.

(** ** Composing runs *)

Section Regular.

Context {num : Type}.
Implicit Types (w d : world num) (filename : string).

Lemma after_initial w : after w (initial ∅) = w.
Proof.
  destruct w; unfold after, initial; simpl.
  by rewrite !app_nil_r, (left_id_L ∅ (∪)).
Qed.

Lemma initial_after d : after (initial ∅) d = d.
Proof.
  destruct d; unfold after, initial; simpl. by rewrite (right_id_L ∅ (∪)).
Qed.

Lemma after_assoc w d d' : after (after w d) d' = after w (after d d').
Proof. unfold after; simpl. by rewrite !app_assoc, (assoc_L (∪)). Qed.

Lemma regular_ret {X} (x : X) : regular (num:=num) (ret x).
Proof. intros w. unfold ret; simpl. by rewrite after_initial. Qed.

Lemma regular_raise {X} (e : exn) : regular (num:=num) (raise (A:=X) e).
Proof. intros w. unfold raise; simpl. by rewrite after_initial. Qed.

Lemma regular_print (s : string) : regular (num:=num) (print s).
Proof.
  intros [cs fs out]. unfold print, after; simpl.
  by rewrite app_nil_r, (left_id_L ∅ (∪)).
Qed.

Lemma regular_invoke {X} (cl : call num) (r : py_exn + X) :
  regular (invoke cl r).
Proof.
  intros [cs fs out]. unfold invoke, after.
  destruct r; simpl; by rewrite app_nil_r, (left_id_L ∅ (∪)).
Qed.

Lemma regular_invoke_write (E : Engine num) filename (p : prob E) :
  regular (invoke_write E filename p).
Proof.
  intros [cs fs out]. unfold invoke_write, after.
  destruct (write E filename p) as [?|[? ?]]; simpl.
  - by rewrite app_nil_r, (left_id_L ∅ (∪)).
  - rewrite app_nil_r. unfold store, record; simpl.
    by rewrite <- insert_union_l, (left_id_L ∅ (∪)).
Qed.

Lemma regular_subscript {X} (l0 : list X) (i : nat) :
  regular (num:=num) (subscript l0 i).
Proof.
  unfold subscript. destruct (l0 !! i); [apply regular_ret|apply regular_raise].
Qed.

Lemma regular_bind {X Y} (m : M num X) (k : X -> M num Y) :
  regular m -> (forall x, regular (k x)) -> regular (bind m k).
Proof.
  intros Hm Hk w. unfold bind.
  rewrite (Hm w). destruct (m (initial ∅)) as [[x|e] d]; simpl.
  - rewrite (Hk x (after w d)), (Hk x d). simpl. by rewrite after_assoc.
  - reflexivity.
Qed.

Lemma regular_try {X} (body : M num X) (h : string -> M num X) :
  regular body -> (forall msg, regular (h msg)) ->
  regular (try_except_CplexError body h).
Proof.
  intros Hm Hk w. unfold try_except_CplexError.
  rewrite (Hm w). destruct (body (initial ∅)) as [[x|[[]| |]] d]; simpl;
    try reflexivity.
  rewrite (Hk msg (after w d)), (Hk msg d). simpl. by rewrite after_assoc.
Qed.

Lemma regular_comprehension {X Y} (f : X -> M num Y) (js : list X) :
  (forall j, regular (f j)) -> regular (comprehension f js).
Proof.
  intros Hf. induction js as [|j js IH]; [apply regular_ret|].
  rewrite comprehension_cons.
  apply regular_bind; [apply Hf|]. intros y.
  apply regular_bind; [apply IH|]. intros ys. apply regular_ret.
Qed.

Lemma regular_if {X} (t : bool) (m1 m2 : M num X) :
  regular m1 -> regular m2 -> regular (if t then m1 else m2).
Proof. by destruct t. Qed.

End Regular.

Ltac prove_regular :=
  repeat first
    [ apply regular_ret | apply regular_raise | apply regular_print
    | apply regular_invoke | apply regular_invoke_write
    | apply regular_subscript
    | apply regular_if | apply regular_try | apply regular_comprehension
    | apply regular_bind
    | match goal with
      | |- regular (let (_, _) := ?x in _) => destruct x
      | |- forall _, _ => intros ?
      end ].

(** Symbolic execution of a wrapper: split on the result of each engine
    call in turn. *)
Ltac run_step :=
  match goal with
  | |- context [subscript ?A 0 ?w] =>
      rewrite (subscript_run A 0 w); destruct (A !! 0) eqn:?
  | |- context [invoke _ ?r _] =>
      lazymatch r with
      | inl _ => fail
      | inr _ => fail
      | _ => destruct r as [?|?] eqn:?
      end
  | |- context [invoke_write ?E' ?f ?p _] =>
      unfold invoke_write; destruct (write E' f p) as [?|[? ?]] eqn:?
  | |- context [if ?q then _ else _] => is_var q; destruct q
  | |- context [match ?e with CplexError _ => _ | _ => _ end] =>
      is_var e; destruct e
  | |- context [let (_, _) := ?x in _] => is_var x; destruct x
  end.

Ltac run_wrapper :=
  unfold outcome, log, files_after, printed, wrapper;
  repeat first
    [ rewrite bind_comprehension_rows by reflexivity
    | rewrite bind_run
    | rewrite try_bind
    | rewrite try_ret
    | progress simpl
    | run_step ].

Ltac split_elem H :=
  repeat (apply elem_of_cons in H; destruct H as [H|H]; [subst|]);
  try (apply elem_of_nil in H; destruct H).

Ltac finish :=
  repeat first
    [ progress (intros; simplify_eq/=)
    | match goal with
      | H : _ ∈ _ |- _ => split_elem H
      | H : _ \/ _ |- _ => destruct H
      | H : _ /\ _ |- _ => destruct H
      | H : exists _, _ |- _ => destruct H
      | |- _ /\ _ => split
      | |- _ <> _ => intros ?
      end ];
  try done.

Ltac at_index i :=
  repeat (destruct i as [|i]; simplify_eq/=).

(** Membership in the log of a concrete run. *)
Ltac in_log := apply list_elem_of_In; vm_compute; tauto.

(** Every call of a concrete run returned. *)
Ltac all_returned :=
  let en := fresh "en" in
  let Hen := fresh "Hen" in
  intros en Hen; apply list_elem_of_In in Hen; vm_compute in Hen;
  repeat (destruct Hen as [<-|Hen]; [reflexivity|]); destruct Hen.

(** The same for two runs at once, on engine states related by [sim]. *)
Ltac related_step E sim Hs :=
  match goal with
  | |- context [subscript ?A 0 ?w] =>
      rewrite (subscript_run A 0 w); destruct (A !! 0) eqn:?
  | |- context [invoke _ (set_stream E ?ch ?f ?q) _] =>
      lazymatch goal with
      | Hpq : sim _ q |- _ =>
          destruct (sim_set_stream E sim Hs ch f _ q Hpq) as (? & -> & ?);
          clear Hpq
      | _ => pose proof (sim_refl E sim Hs q)
      end
  | Hpq : sim ?p ?q |- context [invoke _ (solve E ?q) _] =>
      let Hag := fresh "Hag" in
      pose proof (sim_solve E sim Hs p q Hpq) as Hag; clear Hpq;
      destruct (solve E p), (solve E q); simpl in Hag;
      [subst | contradiction | contradiction | ]
  | Hpq : sim ?p ?q |- context [invoke_write E ?f ?q _] =>
      let Hag := fresh "Hag" in
      pose proof (sim_write E sim Hs f p q Hpq) as Hag; clear Hpq;
      unfold invoke_write;
      destruct (write E f p) as [?|[? ?]], (write E f q) as [?|[? ?]];
      simpl in Hag; [subst | contradiction | contradiction | destruct Hag; subst ]
  | Hpq : sim ?p ?q |- context [invoke _ (get_values E ?q) _] =>
      let Hag := fresh "Hag" in
      pose proof (sim_get_values E sim Hs p q Hpq) as Hag; clear Hpq;
      destruct (get_values E p) as [?|[? ?]], (get_values E q) as [?|[? ?]];
      simpl in Hag; [subst | contradiction | contradiction | destruct Hag; subst ]
  | Hpq : sim ?p ?q |- context [invoke _ (get_objective_value E ?q) _] =>
      let Hag := fresh "Hag" in
      pose proof (sim_get_objective_value E sim Hs p q Hpq) as Hag; clear Hpq;
      destruct (get_objective_value E p) as [?|[? ?]],
               (get_objective_value E q) as [?|[? ?]];
      simpl in Hag; [subst | contradiction | contradiction | destruct Hag; subst ]
  | |- context [invoke _ ?r _] =>
      lazymatch r with
      | inl _ => fail
      | inr _ => fail
      | solve _ _ => fail
      | get_values _ _ => fail
      | get_objective_value _ _ => fail
      | _ => destruct r as [?|?] eqn:?
      end
  | |- context [if ?q then _ else _] => is_var q; destruct q
  | |- context [match ?e with CplexError _ => _ | _ => _ end] =>
      is_var e; destruct e
  end.

Ltac run_related E sim Hs :=
  unfold outcome, log, files_after, printed, wrapper;
  repeat first
    [ rewrite bind_comprehension_rows by reflexivity
    | rewrite bind_run
    | rewrite try_bind
    | rewrite try_ret
    | progress simpl
    | related_step E sim Hs ].

Section Facts.

Context {num : Type} (int : Z -> num) (E : Engine num).
Implicit Types (A : list (list num)) (b c u l : list num) (w : world num).
Implicit Types (types : option string) (filename saved : string).

(** *** The wrappers as instances of the shared body *)

Lemma lprog_wrapper A b c u l saveOpt quietOpt :
  lprog int E A b c u l saveOpt quietOpt
  = wrapper int E None "lprog.lp" "LP saved as lprog.lp"
            A b c u l saveOpt quietOpt.
Proof. reflexivity. Qed.

Lemma mip_wrapper A b c u l varType saveOpt quietOpt :
  mip int E A b c u l varType saveOpt quietOpt
  = wrapper int E (Some varType) "mip.lp" "LP saved as mip.lp"
            A b c u l saveOpt quietOpt.
Proof. reflexivity. Qed.

(** *** Facts about the shared body *)

Lemma wrapper_never_validation_error types filename saved A b c u l s q fs :
  outcome (wrapper int E types filename saved A b c u l s q) fs
  <> Raise ShapeError /\
  outcome (wrapper int E types filename saved A b c u l s q) fs
  <> Raise TypeTagError.
Proof. run_wrapper; finish. Qed.

Lemma wrapper_building_failure types filename saved A b c u l s q fs :
  building_failure_propagates
    (wrapper int E types filename saved A b c u l s q) fs.
Proof.
  unfold building_failure_propagates, never_solves_or_writes.
  run_wrapper; finish.
Qed.

Lemma wrapper_hands_over types filename saved A b c u l s q fs :
  hands_over_unchanged A b c u l
    (wrapper int E types filename saved A b c u l s q) fs.
Proof.
  unfold hands_over_unchanged.
  run_wrapper; finish; rewrite ?map_snd_rows; done.
Qed.

(** [variables.add] gets the [types] argument as it is, and is the third
    call, after [cplex.Cplex()] and [set_sense] have returned. *)
Lemma wrapper_variables_add types filename saved A b c u l s q fs :
  forall en obj ub lb types' names,
    en ∈ log (wrapper int E types filename saved A b c u l s q) fs ->
    what en = variables_add_call obj ub lb types' names ->
    types' = types /\
    log (wrapper int E types filename saved A b c u l s q) fs !! 0
    = Some (returned Cplex_call) /\
    log (wrapper int E types filename saved A b c u l s q) fs !! 1
    = Some (returned (set_sense_call maximize)) /\
    log (wrapper int E types filename saved A b c u l s q) fs !! 2 = Some en.
Proof. run_wrapper; finish. Qed.

(** With a matrix of at least one row, the first thing either wrapper does
    is to call [cplex.Cplex()]. *)
Lemma wrapper_first_call types filename saved row A b c u l s q fs :
  exists r,
    log (wrapper int E types filename saved (row :: A) b c u l s q) fs !! 0
    = Some {| what := Cplex_call; raised := r |}.
Proof. run_wrapper; finish; eauto. Qed.

Lemma wrapper_senses types filename saved A b c u l s q fs :
  (forall en o,
      en ∈ log (wrapper int E types filename saved A b c u l s q) fs ->
      what en = set_sense_call o -> o = maximize) /\
  (forall en lin_expr senses rhs,
      en ∈ log (wrapper int E types filename saved A b c u l s q) fs ->
      what en = linear_constraints_add_call lin_expr senses rhs ->
      length lin_expr = length A /\
      row_senses senses = replicate (length A) "L"%char).
Proof.
  run_wrapper; finish.
  all: rewrite ?row_senses_L, ?length_map; done.
Qed.

Lemma wrapper_raises_only_from_engine types filename saved row A b c u l s q fs :
  raises_only_from_engine
    (wrapper int E types filename saved (row :: A) b c u l s q) fs.
Proof. unfold raises_only_from_engine. run_wrapper; finish; eauto. Qed.

Lemma wrapper_raised types filename saved A b c u l s q fs :
  raised_is_propagated_or_caught ([], int (-1)%Z)
    (wrapper int E types filename saved A b c u l s q) fs.
Proof.
  unfold raised_is_propagated_or_caught.
  run_wrapper; finish; eauto 10.
Qed.

Lemma wrapper_CplexError_in_try types filename saved A b c u l s q fs msg :
  reports_CplexError_in_try
    (wrapper int E types filename saved A b c u l s q) fs msg ->
  outcome (wrapper int E types filename saved A b c u l s q) fs
  = Return ([], int (-1)%Z) /\
  last (printed (wrapper int E types filename saved A b c u l s q) fs)
  = Some msg.
Proof. unfold reports_CplexError_in_try. run_wrapper; finish. Qed.

Lemma wrapper_writes types filename saved A b c u l q fs :
  writes_right_after_solve filename
    (wrapper int E types filename saved A b c u l true q) fs.
Proof.
  unfold writes_right_after_solve.
  run_wrapper; finish.
  all: match goal with H : _ !! ?i = Some _ |- _ => at_index i end.
  all: eexists; split; [reflexivity|]; intros; simplify_eq; eauto.
Qed.

Lemma wrapper_writes_nothing types filename saved A b c u l q fs :
  writes_nothing (wrapper int E types filename saved A b c u l false q) fs.
Proof. unfold writes_nothing. run_wrapper; finish. Qed.

Lemma lookup_rows A (C j : nat) row :
  A !! j = Some row ->
  map (fun row : list num => (range C, row)) A !! j = Some (range C, row).
Proof.
  revert j. induction A as [|r A IH]; intros [|j] H; simplify_eq/=; auto.
Qed.

(** The translation of a well-shaped matrix is dense. *)
Lemma dense_rows_map (C : nat) A :
  well_shaped C A ->
  dense_rows C A (map (fun row => (range C, row)) A).
Proof.
  intros HA. split; [apply length_map|].
  intros j row Hj.
  assert (Hlen : length row = C).
  { unfold well_shaped in HA. rewrite Forall_lookup in HA. eauto. }
  split; [by apply lookup_rows|].
  unfold pairs, range. simpl. split.
  - rewrite length_zip_with, length_seq. lia.
  - intros i Hi.
    destruct (lookup_lt_is_Some_2 row i) as [a Ha]; [lia|].
    exists a. split; [exact Ha|].
    rewrite lookup_zip_with, lookup_seq_lt by exact Hi.
    simpl. rewrite Ha. reflexivity.
Qed.

Lemma wrapper_dense_rows (C : nat) types filename saved A b c u l s q fs :
  well_shaped C A ->
  forall en lin_expr senses rhs,
    en ∈ log (wrapper int E types filename saved A b c u l s q) fs ->
    what en = linear_constraints_add_call lin_expr senses rhs ->
    dense_rows C A lin_expr.
Proof.
  intros HA.
  assert (HC : forall l0, A !! 0 = Some l0 -> length l0 = C).
  { unfold well_shaped in HA. rewrite Forall_lookup in HA. eauto. }
  revert HC.
  run_wrapper; finish.
  all: match goal with H : forall _, _ -> _ |- _ => erewrite H by reflexivity end.
  all: by apply dense_rows_map.
Qed.

(** Once [variables.add] has returned, the next call is
    [linear_constraints.add]: the translation itself cannot raise. *)
Lemma wrapper_translation_total types filename saved A b c u l s q fs :
  forall i en,
    log (wrapper int E types filename saved A b c u l s q) fs !! i = Some en ->
    is_variables_add (what en) = true -> raised en = None ->
    exists lin_expr senses rhs r,
      log (wrapper int E types filename saved A b c u l s q) fs !! S i
      = Some {| what := linear_constraints_add_call lin_expr senses rhs;
                raised := r |}.
Proof.
  run_wrapper; finish.
  all: match goal with H : _ !! ?i = Some _ |- _ => at_index i end.
  all: eexists _, _, _, _; reflexivity.
Qed.

Lemma wrapper_names types filename saved A b c u l s q fs :
  forall en obj ub lb types' names,
    en ∈ log (wrapper int E types filename saved A b c u l s q) fs ->
    what en = variables_add_call obj ub lb types' names ->
    exists row,
      A !! 0 = Some row /\
      names = map (fun i => "x" +:+ str i) (range (length row)).
Proof. run_wrapper; finish; eauto. Qed.

Lemma wrapper_solves_once types filename saved A b c u l s q fs :
  solve_calls (log (wrapper int E types filename saved A b c u l s q) fs) <= 1.
Proof. run_wrapper; finish; compute; lia. Qed.

Lemma wrapper_returns_engine_solution types filename saved A b c u l s q fs :
  forall x obj,
    outcome (wrapper int E types filename saved A b c u l s q) fs
    = Return (x, obj) ->
    (forall en,
        en ∈ log (wrapper int E types filename saved A b c u l s q) fs ->
        raised en = None) ->
    exists p p' p'',
      get_values E p = inr (p', x) /\
      get_objective_value E p' = inr (p'', obj).
Proof.
  run_wrapper; finish.
  all: try (match goal with
            | H : forall en, en ∈ ?l -> raised en = None |- _ =>
                apply Forall_forall in H; decompose_Forall_hyps;
                simplify_eq/=
            end).
  all: eauto 10.
Qed.

Lemma wrapper_protocol types filename saved A b c u l s q fs :
  map what (log (wrapper int E types filename saved A b c u l s q) fs)
  `prefix_of` script types filename A b c u l s q /\
  ((forall en,
       en ∈ log (wrapper int E types filename saved A b c u l s q) fs ->
       raised en = None) ->
   map what (log (wrapper int E types filename saved A b c u l s q) fs)
   = script types filename A b c u l s q).
Proof.
  unfold script, quiet_calls.
  run_wrapper.
  all: split; [eexists; reflexivity|].
  all: try reflexivity.
  all: intros H; apply Forall_forall in H; decompose_Forall_hyps;
    simplify_eq/=.
Qed.

Lemma wrapper_only_last_raises types filename saved A b c u l s q fs :
  forall en,
    en ∈ take (length (log (wrapper int E types filename saved A b c u l s q)
                           fs) - 1)
              (log (wrapper int E types filename saved A b c u l s q) fs) ->
    raised en = None.
Proof. run_wrapper; finish. Qed.

Lemma wrapper_translation types filename saved A b c u l s q fs :
  forall en lin_expr senses rhs,
    en ∈ log (wrapper int E types filename saved A b c u l s q) fs ->
    what en = linear_constraints_add_call lin_expr senses rhs ->
    exists row0,
      A !! 0 = Some row0 /\
      lin_expr = map (fun row => (range (length row0), row)) A.
Proof. run_wrapper; finish; eauto. Qed.

Lemma wrapper_quiet_set types filename saved A b c u l s fs :
  forall en,
    en ∈ log (wrapper int E types filename saved A b c u l s true) fs ->
    what en = solve_call ->
    take 4 (drop 4 (log (wrapper int E types filename saved A b c u l s true)
                        fs))
    = map returned quiet_calls /\
    log (wrapper int E types filename saved A b c u l s true) fs !! 8
    = Some en.
Proof. unfold quiet_calls. run_wrapper; finish. Qed.

Lemma wrapper_quiet_unset types filename saved A b c u l s fs :
  (forall en ch f,
      en ∈ log (wrapper int E types filename saved A b c u l s false) fs ->
      what en <> set_stream_call ch f) /\
  (forall en,
      en ∈ log (wrapper int E types filename saved A b c u l s false) fs ->
      what en = solve_call ->
      log (wrapper int E types filename saved A b c u l s false) fs !! 4
      = Some en).
Proof. run_wrapper; finish. Qed.

Lemma wrapper_printed types filename saved A b c u l s q fs :
  printed (wrapper int E types filename saved A b c u l s q) fs
  = ((if write_returned
           (log (wrapper int E types filename saved A b c u l s q) fs)
      then [saved] else [])
     ++ (match caught
                 (log (wrapper int E types filename saved A b c u l s q) fs)
         with Some msg => [msg] | None => [] end))%list.
Proof.
  run_wrapper.
  all: unfold caught, write_returned; simpl.
  all: repeat match goal with
         | |- context [match ?e with CplexError _ => _ | _ => _ end] =>
             is_var e; destruct e
         end.
  all: reflexivity.
Qed.

Lemma wrapper_regular types filename saved A b c u l s q :
  regular (wrapper int E types filename saved A b c u l s q).
Proof. unfold wrapper. prove_regular. Qed.

(** What a run from no files leaves: nothing, or its one file. *)
Lemma wrapper_leaves types filename saved A b c u l s q :
  (write_returned (log (wrapper int E types filename saved A b c u l s q) ∅)
   = false /\
   files_after (wrapper int E types filename saved A b c u l s q) ∅ = ∅) \/
  (exists text,
      write_returned (log (wrapper int E types filename saved A b c u l s q) ∅)
      = true /\
      files_after (wrapper int E types filename saved A b c u l s q) ∅
      = {[filename := text]}).
Proof. run_wrapper. all: first [ by left | right; by eexists ]. Qed.

Lemma regular_files {X} (m : M num X) w :
  regular m -> files (snd (m w)) = files_after m ∅ ∪ files w.
Proof. intros Hm. rewrite (Hm w). reflexivity. Qed.

Lemma wrapper_touches_its_file types filename saved A b c u l s q w :
  (forall g, g <> filename ->
     files (snd (wrapper int E types filename saved A b c u l s q w)) !! g
     = files w !! g) /\
  (write_returned (log (wrapper int E types filename saved A b c u l s q) ∅)
   = false ->
   files (snd (wrapper int E types filename saved A b c u l s q w)) = files w).
Proof.
  rewrite (regular_files _ w (wrapper_regular _ _ _ _ _ _ _ _ _ _)).
  destruct (wrapper_leaves types filename saved A b c u l s q)
    as [[Hr ->]|(text & Hr & ->)].
  - rewrite (left_id_L ∅ (∪)). done.
  - split; [|congruence]. intros g Hg.
    rewrite <- insert_union_singleton_l. by rewrite lookup_insert_ne.
Qed.

(** *** Main theorems *)

(** C2.  When the engine reports that there is no solution, which it does
    by raising [CplexError] from a call inside the [try] statement, both
    wrappers print the message and return [([], -1)]; nothing is raised. *)
Theorem infeasible_returns_sentinel A b c u l varType s q fs msg :
  (reports_CplexError_in_try (lprog int E A b c u l s q) fs msg ->
   outcome (lprog int E A b c u l s q) fs = Return ([], int (-1)%Z) /\
   last (printed (lprog int E A b c u l s q) fs) = Some msg) /\
  (reports_CplexError_in_try (mip int E A b c u l varType s q) fs msg ->
   outcome (mip int E A b c u l varType s q) fs = Return ([], int (-1)%Z) /\
   last (printed (mip int E A b c u l varType s q) fs) = Some msg).
Proof.
  rewrite lprog_wrapper, mip_wrapper.
  split; apply wrapper_CplexError_in_try.
Qed.

(** C9.  Every exception raised by an engine call either reaches the caller
    as it is, or is a [CplexError] raised inside the [try] statement, which
    is printed and turned into [([], -1)].  So an exception that is no
    [CplexError] always reaches the caller, wherever it is raised, and so
    does the [IndexError] of [A[0]] on an empty matrix. *)
Theorem only_CplexError_is_caught A b c u l varType s q fs :
  let holds (m : M num (list num * num)) :=
    raised_is_propagated_or_caught ([], int (-1)%Z) m fs /\
    (forall en e,
        en ∈ log m fs -> raised en = Some e -> is_CplexError e = false ->
        outcome m fs = Raise (Py e)) in
  holds (lprog int E A b c u l s q) /\
  holds (mip int E A b c u l varType s q) /\
  outcome (lprog int E [] b c u l s q) fs = Raise (Py IndexError) /\
  outcome (mip int E [] b c u l varType s q) fs = Raise (Py IndexError).
Proof.
  cbv zeta. rewrite !lprog_wrapper, !mip_wrapper.
  assert (Hnon : forall (m : M num (list num * num)),
             raised_is_propagated_or_caught ([], int (-1)%Z) m fs ->
             forall en e,
               en ∈ log m fs -> raised en = Some e ->
               is_CplexError e = false -> outcome m fs = Raise (Py e)).
  { intros m Hm en e Hen He Hno.
    destruct (Hm en e Hen He) as [Hr|(msg & -> & _)]; [exact Hr|discriminate]. }
  split_and!; try reflexivity.
  - apply wrapper_raised.
  - apply Hnon, wrapper_raised.
  - apply wrapper_raised.
  - apply Hnon, wrapper_raised.
Qed.

(** C10.  With an empty matrix both wrappers raise [IndexError] from
    [A[0]] before anything else happens: no engine call, nothing printed, no
    file touched.  With a matrix of at least one row the wrappers' own code
    raises nothing: an exception that reaches the caller is the one raised by
    the last engine call. *)
Theorem empty_matrix_IndexError b c u l varType s q fs :
  lprog int E [] b c u l s q (initial fs) = (Raise (Py IndexError), initial fs) /\
  mip int E [] b c u l varType s q (initial fs)
  = (Raise (Py IndexError), initial fs) /\
  (forall row A,
      raises_only_from_engine (lprog int E (row :: A) b c u l s q) fs /\
      raises_only_from_engine (mip int E (row :: A) b c u l varType s q) fs).
Proof.
  split; [reflexivity|]. split; [reflexivity|].
  intros row A. rewrite lprog_wrapper, mip_wrapper.
  split; apply wrapper_raises_only_from_engine.
Qed.

(** *** Further properties *)

(** X1.  The names handed to [variables.add] are ["x0"], ["x1"], ... one
    for each entry of the first row of the matrix. *)
Theorem variable_names_are_x_index A b c u l varType s q fs :
  let holds (m : M num (list num * num)) :=
    forall en obj ub lb types names,
      en ∈ log m fs ->
      what en = variables_add_call obj ub lb types names ->
      exists row,
        A !! 0 = Some row /\
        names = map (fun i => "x" +:+ str i) (range (length row)) in
  holds (lprog int E A b c u l s q) /\
  holds (mip int E A b c u l varType s q).
Proof.
  cbv zeta. rewrite lprog_wrapper, mip_wrapper.
  split; apply wrapper_names.
Qed.

(** X2.  Either wrapper calls [solve] at most once. *)
Theorem solve_is_called_at_most_once A b c u l varType s q fs :
  solve_calls (log (lprog int E A b c u l s q) fs) <= 1 /\
  solve_calls (log (mip int E A b c u l varType s q) fs) <= 1.
Proof.
  rewrite lprog_wrapper, mip_wrapper.
  split; apply wrapper_solves_once.
Qed.

(** X3.  When no engine call raised, the pair returned is the engine's own:
    [x] is what [get_values] returned and [obj] what
    [get_objective_value] returned right after it; the wrappers compute
    nothing on them. *)
Theorem returns_engine_solution A b c u l varType s q fs :
  let holds (m : M num (list num * num)) :=
    forall x obj,
      outcome m fs = Return (x, obj) ->
      (forall en, en ∈ log m fs -> raised en = None) ->
      exists p p' p'',
        get_values E p = inr (p', x) /\
        get_objective_value E p' = inr (p'', obj) in
  holds (lprog int E A b c u l s q) /\
  holds (mip int E A b c u l varType s q).
Proof.
  cbv zeta. rewrite lprog_wrapper, mip_wrapper.
  split; apply wrapper_returns_engine_solution.
Qed.

(** X4.  The engine calls of a run are an initial part of one fixed
    sequence: [cplex.Cplex()], [set_sense(maximize)], [variables.add],
    [linear_constraints.add], the four stream setters when [quietOpt] is
    set, [solve], [write] when [saveOpt] is set, [get_values],
    [get_objective_value], each with the arguments computed from the input
    alone; when no call raised, all of them were made.  With an empty
    matrix the sequence is empty. *)
Theorem engine_protocol A b c u l varType s q fs :
  let holds (m : M num (list num * num)) (calls : list (call num)) :=
    map what (log m fs) `prefix_of` calls /\
    ((forall en, en ∈ log m fs -> raised en = None) ->
     map what (log m fs) = calls) in
  holds (lprog int E A b c u l s q) (script None "lprog.lp" A b c u l s q) /\
  holds (mip int E A b c u l varType s q)
        (script (Some varType) "mip.lp" A b c u l s q).
Proof.
  cbv zeta. rewrite lprog_wrapper, mip_wrapper.
  split; apply wrapper_protocol.
Qed.

(** X5.  A wrapper makes no engine call after one has raised: every logged
    call but the last one returned. *)
Theorem only_last_call_raises A b c u l varType s q fs :
  let holds (m : M num (list num * num)) :=
    forall en,
      en ∈ take (length (log m fs) - 1) (log m fs) -> raised en = None in
  holds (lprog int E A b c u l s q) /\
  holds (mip int E A b c u l varType s q).
Proof.
  cbv zeta. rewrite lprog_wrapper, mip_wrapper.
  split; apply wrapper_only_last_raises.
Qed.

(** X6.  For any matrix, also one whose rows differ in length, each row
    handed to [linear_constraints.add] pairs the index list
    [0..len(A[0])-1] of the first row with the row's own entries as they
    are: rows are neither padded nor cut. *)
Theorem translation_of_any_matrix A b c u l varType s q fs :
  let holds (m : M num (list num * num)) :=
    forall en lin_expr senses rhs,
      en ∈ log m fs ->
      what en = linear_constraints_add_call lin_expr senses rhs ->
      exists row0,
        A !! 0 = Some row0 /\
        lin_expr = map (fun row => (range (length row0), row)) A in
  holds (lprog int E A b c u l s q) /\
  holds (mip int E A b c u l varType s q).
Proof.
  cbv zeta. rewrite lprog_wrapper, mip_wrapper.
  split; apply wrapper_translation.
Qed.

(** X7.  With [quietOpt] set, by the time [solve] is called the four
    stream setters have been called with [None] and have returned, in the
    order log, error, warning, results, right after the model was built;
    with [quietOpt] unset no stream setter is ever called and [solve]
    follows the model building directly. *)
Theorem quiet_sets_the_four_streams A b c u l varType s fs :
  let holds (m : bool -> M num (list num * num)) :=
    (forall en,
        en ∈ log (m true) fs -> what en = solve_call ->
        take 4 (drop 4 (log (m true) fs)) = map returned quiet_calls /\
        log (m true) fs !! 8 = Some en) /\
    (forall en ch f,
        en ∈ log (m false) fs -> what en <> set_stream_call ch f) /\
    (forall en,
        en ∈ log (m false) fs -> what en = solve_call ->
        log (m false) fs !! 4 = Some en) in
  holds (lprog int E A b c u l s) /\
  holds (mip int E A b c u l varType s).
Proof.
  cbv beta zeta. rewrite !lprog_wrapper, !mip_wrapper.
  split; (split; [apply wrapper_quiet_set|apply wrapper_quiet_unset]).
Qed.

(** X8.  What a wrapper prints is read off its engine calls: the line
    ["LP saved as <file>"] exactly when [write] was called and returned,
    followed by the message of the [CplexError] exactly when one was
    caught; nothing else. *)
Theorem printed_lines A b c u l varType s q fs :
  let holds (m : M num (list num * num)) (saved : string) :=
    printed m fs
    = ((if write_returned (log m fs) then [saved] else [])
       ++ (match caught (log m fs) with
           | Some msg => [msg]
           | None => []
           end))%list in
  holds (lprog int E A b c u l s q) "LP saved as lprog.lp" /\
  holds (mip int E A b c u l varType s q) "LP saved as mip.lp".
Proof.
  cbv zeta. rewrite lprog_wrapper, mip_wrapper.
  split; apply wrapper_printed.
Qed.

(** X10.  A call touches no file but its own ([lprog.lp], [mip.lp]); when
    [write] was not called or did not return, it leaves every file as it
    was. *)
Theorem touches_only_its_file A b c u l varType s q w :
  let holds (m : M num (list num * num)) (filename : string) :=
    (forall g, g <> filename -> files (snd (m w)) !! g = files w !! g) /\
    (write_returned (log m ∅) = false -> files (snd (m w)) = files w) in
  holds (lprog int E A b c u l s q) "lprog.lp" /\
  holds (mip int E A b c u l varType s q) "mip.lp".
Proof.
  cbv zeta. rewrite lprog_wrapper, mip_wrapper.
  split; apply wrapper_touches_its_file.
Qed.

End Facts.

(** ** Runs go through the script *)

Section Progress.

Context {num : Type} (int : Z -> num) (E : Engine num).
Implicit Types (A : list (list num)) (b c u l : list num) (w : world num).
Implicit Types (types : option string) (filename saved : string).

Lemma returned_or_raised (log0 : list (entry num)) :
  (forall en, en ∈ log0 -> raised en = None) \/
  (exists j en e, log0 !! j = Some en /\ raised en = Some e).
Proof.
  induction log0 as [|en0 log0 [IH|(j & en & e & Hj & He)]].
  - left. intros en Hen. by apply elem_of_nil in Hen.
  - destruct (raised en0) as [e|] eqn:He0.
    + right. exists 0, en0, e. done.
    + left. intros en [->|Hen]%elem_of_cons; auto.
  - right. exists (S j), en, e. done.
Qed.

(** A log that is an initial part of [cs], and all of [cs] when no call
    raised, goes through [cs] call by call until one raises. *)
Lemma prefix_runs_through (log0 : list (entry num)) (cs : list (call num)) :
  map what log0 `prefix_of` cs ->
  ((forall en, en ∈ log0 -> raised en = None) -> map what log0 = cs) ->
  forall i cl, cs !! i = Some cl -> called_unless_raised log0 i cl.
Proof.
  intros [k Hk] Hall i cl Hi.
  destruct (decide (i < length log0)) as [Hlt|Hge].
  - left. destruct (lookup_lt_is_Some_2 log0 i Hlt) as [[cl' r] Hen].
    exists r. rewrite Hen. do 2 f_equal.
    assert (Hm : map what log0 !! i = Some cl').
    { change (map what log0) with (what <$> log0).
      by rewrite list_lookup_fmap, Hen. }
    rewrite Hk, lookup_app_l in Hi by (by rewrite length_map).
    congruence.
  - right. destruct (returned_or_raised log0) as [Hr|(j & en & e & Hj & He)].
    + apply Hall in Hr. apply lookup_lt_Some in Hi.
      rewrite <- Hr, length_map in Hi. lia.
    + exists j, en, e. split_and!; [|done|done].
      apply lookup_lt_Some in Hj. lia.
Qed.

Lemma wrapper_runs_through types filename saved A b c u l s q fs :
  runs_through (script types filename A b c u l s q)
    (wrapper int E types filename saved A b c u l s q) fs.
Proof.
  destruct (wrapper_protocol int E types filename saved A b c u l s q fs)
    as [Hp Hall].
  exact (prefix_runs_through _ _ Hp Hall).
Qed.

Lemma wrapper_model_at_solve types filename saved A b c u l s q fs :
  model_at_solve types A b c u l
    (wrapper int E types filename saved A b c u l s q) fs.
Proof.
  unfold model_at_solve.
  run_wrapper; finish.
  all: first
         [ by eexists
         | eexists _, _; split_and!;
           [reflexivity | apply map_snd_rows | apply row_senses_L] ].
Qed.

Lemma wrapper_failed_write types filename saved A b c u l s q fs :
  failed_write_leaves_no_file ([], int (-1)%Z)
    (wrapper int E types filename saved A b c u l s q) fs.
Proof. unfold failed_write_leaves_no_file. run_wrapper; finish. Qed.

Lemma wrapper_returns_when_all_return types filename saved row A b c u l s q fs :
  (forall en,
      en ∈ log (wrapper int E types filename saved (row :: A) b c u l s q) fs ->
      raised en = None) ->
  exists x obj,
    outcome (wrapper int E types filename saved (row :: A) b c u l s q) fs
    = Return (x, obj).
Proof.
  run_wrapper; finish.
  all: try (match goal with
            | H : forall en, en ∈ ?l -> raised en = None |- _ =>
                apply Forall_forall in H; decompose_Forall_hyps;
                simplify_eq/=
            end).
  all: eauto.
Qed.

Lemma wrapper_raises types filename saved A b c u l s q fs :
  forall e,
    outcome (wrapper int E types filename saved A b c u l s q) fs = Raise e ->
    (A = [] /\ e = Py IndexError) \/
    (exists cl pe,
        last (log (wrapper int E types filename saved A b c u l s q) fs)
        = Some {| what := cl; raised := Some pe |} /\ e = Py pe).
Proof.
  run_wrapper; finish; eauto.
  left. by destruct A.
Qed.

Lemma script_third types filename A b c u l s q row0 :
  A !! 0 = Some row0 ->
  script types filename A b c u l s q !! 2
  = Some (variables_add_call c u l types
            (map (fun i => "x" +:+ str i) (range (length row0)))).
Proof. intros H. unfold script. rewrite H. reflexivity. Qed.

Lemma script_second types filename A b c u l s q row0 :
  A !! 0 = Some row0 ->
  script types filename A b c u l s q !! 1 = Some (set_sense_call maximize).
Proof. intros H. unfold script. rewrite H. reflexivity. Qed.

Lemma script_fourth types filename A b c u l s q row0 :
  A !! 0 = Some row0 ->
  script types filename A b c u l s q !! 3
  = Some (linear_constraints_add_call
            (map (fun row => (range (length row0), row)) A)
            [str_mul "L" (length A)] b).
Proof. intros H. unfold script. rewrite H. reflexivity. Qed.

(** C1, as amended.  Neither wrapper checks dimensions or raises
    [ShapeError].  Whatever the lengths of the vectors and rows, the engine
    calls of a run are those of [script], each made in its turn unless an
    earlier call raised: [cplex.Cplex()], [set_sense(maximize)],
    [variables.add] with [c], [u], [l] as given, [linear_constraints.add]
    with the rows of [A] and [b] as given, then the stream setters, [solve],
    [write] and the two queries.  When a call made while the model is built
    raises, that exception reaches the caller unchanged, no [solve] call is
    made and no file is written.  An exception that reaches the caller is
    always the one raised by the last engine call, except [IndexError] for an
    empty matrix. *)
Theorem no_dimension_check A b c u l varType s q fs :
  let holds (m : M num (list num * num)) (calls : list (call num)) :=
    outcome m fs <> Raise ShapeError /\
    runs_through calls m fs /\
    hands_over_unchanged A b c u l m fs /\
    building_failure_propagates m fs /\
    (forall e,
        outcome m fs = Raise e ->
        (A = [] /\ e = Py IndexError) \/
        (exists cl pe,
            last (log m fs) = Some {| what := cl; raised := Some pe |} /\
            e = Py pe)) in
  holds (lprog int E A b c u l s q) (script None "lprog.lp" A b c u l s q) /\
  holds (mip int E A b c u l varType s q)
        (script (Some varType) "mip.lp" A b c u l s q).
Proof.
  cbv zeta. rewrite lprog_wrapper, mip_wrapper. split_and!.
  - apply wrapper_never_validation_error.
  - apply wrapper_runs_through.
  - apply wrapper_hands_over.
  - apply wrapper_building_failure.
  - apply wrapper_raises.
  - apply wrapper_never_validation_error.
  - apply wrapper_runs_through.
  - apply wrapper_hands_over.
  - apply wrapper_building_failure.
  - apply wrapper_raises.
Qed.

(** C3, as amended.  With [saveOpt] set, the engine calls of a run are
    those of [script], each made in its turn unless an earlier call raised,
    and whenever [solve] has returned the very next call is [write] under the
    wrapper's fixed file name (["lprog.lp"], ["mip.lp"]), before the solution
    is queried.  The file is
    written exactly when that call returns, whatever the wrapper returns in
    the end; when [write] raises, no file is written, and if it raised a
    [CplexError] the wrapper returns [([], -1)].  With [saveOpt] unset
    [write] is never called and the file system is left as it was. *)
Theorem persist_writes_after_solve A b c u l varType q fs :
  let holds (m : bool -> M num (list num * num)) (filename : string)
      (calls : list (call num)) :=
    runs_through calls (m true) fs /\
    writes_right_after_solve filename (m true) fs /\
    failed_write_leaves_no_file ([], int (-1)%Z) (m true) fs /\
    writes_nothing (m false) fs in
  holds (fun saveOpt => lprog int E A b c u l saveOpt q) "lprog.lp"
        (script None "lprog.lp" A b c u l true q) /\
  holds (fun saveOpt => mip int E A b c u l varType saveOpt q) "mip.lp"
        (script (Some varType) "mip.lp" A b c u l true q).
Proof.
  cbv beta zeta. rewrite !lprog_wrapper, !mip_wrapper. split_and!.
  - apply wrapper_runs_through.
  - apply wrapper_writes.
  - apply wrapper_failed_write.
  - apply wrapper_writes_nothing.
  - apply wrapper_runs_through.
  - apply wrapper_writes.
  - apply wrapper_failed_write.
  - apply wrapper_writes_nothing.
Qed.

(** C4, as amended.  [mip] does not check the type tags and never raises
    [TypeTagError].  Its engine calls are those of [script], each made in its
    turn unless an earlier call raised; the third is [variables.add] with
    the tag sequence as given, whatever its length and characters, made once
    [cplex.Cplex()] and [set_sense] have returned.  When the engine raises
    from it, that exception reaches the caller unchanged, with no [solve]
    call made and no file written.  An exception that reaches the caller is
    always the one raised by the last engine call, except [IndexError] for an
    empty matrix. *)
Theorem mip_hands_type_tags_to_engine A b c u l varType s q fs :
  let m := mip int E A b c u l varType s q in
  outcome m fs <> Raise TypeTagError /\
  runs_through (script (Some varType) "mip.lp" A b c u l s q) m fs /\
  (forall row0,
      A !! 0 = Some row0 ->
      called_unless_raised (log m fs) 2
        (variables_add_call c u l (Some varType)
           (map (fun i => "x" +:+ str i) (range (length row0))))) /\
  (forall en obj ub lb types names,
      en ∈ log m fs ->
      what en = variables_add_call obj ub lb types names ->
      types = Some varType /\
      log m fs !! 0 = Some (returned Cplex_call) /\
      log m fs !! 1 = Some (returned (set_sense_call maximize)) /\
      log m fs !! 2 = Some en) /\
  (forall en e,
      en ∈ log m fs -> is_variables_add (what en) = true ->
      raised en = Some e ->
      outcome m fs = Raise (Py e) /\
      never_solves_or_writes m fs /\
      files_after m fs = fs) /\
  (forall e,
      outcome m fs = Raise e ->
      (A = [] /\ e = Py IndexError) \/
      (exists cl pe,
          last (log m fs) = Some {| what := cl; raised := Some pe |} /\
          e = Py pe)).
Proof.
  cbv zeta. rewrite mip_wrapper. split_and!.
  - apply wrapper_never_validation_error.
  - apply wrapper_runs_through.
  - intros row0 HA. apply wrapper_runs_through. by apply script_third.
  - apply wrapper_variables_add.
  - intros en e Hen Hv He.
    apply (wrapper_building_failure int E _ _ _ A b c u l s q fs en e Hen);
      [|exact He].
    destruct (what en); simpl in *; congruence.
  - apply wrapper_raises.
Qed.

(** C5.  For a matrix whose rows all have [C] entries, the list
    comprehension of the wrappers returns, without raising, one row for each
    matrix row, the [j]-th pairing the columns [0..C-1], in order, with the
    entries of [A[j]]: exactly [C] pairs, zero entries included.  When the
    matrix has a row, both wrappers hand exactly these rows to
    [linear_constraints.add] as their fourth engine call, unless an earlier
    call raised; no other rows are ever handed over. *)
Theorem dense_translation (C : nat) A b c u l varType s q fs :
  well_shaped C A ->
  exists rows,
    dense_rows C A rows /\
    (forall w,
        comprehension
          (fun j =>
             bind (subscript A j)
                  (fun Aj => ret (map (fun i => i) (range C), Aj)))
          (range (length A)) w
        = (Return rows, w)) /\
    let holds (m : M num (list num * num)) :=
      (A <> [] ->
       called_unless_raised (log m fs) 3
         (linear_constraints_add_call rows [str_mul "L" (length A)] b)) /\
      (forall en lin_expr senses rhs,
          en ∈ log m fs ->
          what en = linear_constraints_add_call lin_expr senses rhs ->
          lin_expr = rows) in
    holds (lprog int E A b c u l s q) /\
    holds (mip int E A b c u l varType s q).
Proof.
  intros HA. exists (map (fun row => (range C, row)) A).
  assert (HC : forall row0, A !! 0 = Some row0 -> length row0 = C).
  { unfold well_shaped in HA. rewrite Forall_lookup in HA. eauto. }
  assert (Hcall : forall types filename saved,
    A <> [] ->
    called_unless_raised
      (log (wrapper int E types filename saved A b c u l s q) fs) 3
      (linear_constraints_add_call (map (fun row => (range C, row)) A)
         [str_mul "L" (length A)] b)).
  { intros types filename saved Hne.
    destruct (A !! 0) as [row0|] eqn:H0; [|by destruct A].
    apply wrapper_runs_through.
    rewrite (script_fourth _ _ _ _ _ _ _ _ _ _ H0). by rewrite (HC row0). }
  assert (Hlog : forall types filename saved en lin_expr senses rhs,
    en ∈ log (wrapper int E types filename saved A b c u l s q) fs ->
    what en = linear_constraints_add_call lin_expr senses rhs ->
    lin_expr = map (fun row => (range C, row)) A).
  { intros types filename saved en lin_expr senses rhs Hen Hw.
    destruct (wrapper_translation int E _ _ _ _ _ _ _ _ _ _ _ _ _ _ _ Hen Hw)
      as (row0 & H0 & ->).
    by rewrite (HC row0). }
  split; [by apply dense_rows_map|].
  split; [intros w; by apply comprehension_rows|].
  cbv zeta. rewrite lprog_wrapper, mip_wrapper. split_and!; eauto.
Qed.

(** C6.  Both wrappers call [set_sense(maximize)] as their second engine
    call (unless [cplex.Cplex()] raised) and never set another sense.
    Whenever [solve] is called, the model it is called on was built by calls
    that returned: the sense set is [maximize] and the constraints added are
    one for each row of [A], with a [senses] argument that reads as one
    ["L"] for each of them. *)
Theorem sense_is_maximize_and_rows_are_L A b c u l varType s q fs :
  let holds (m : M num (list num * num)) (types : option string)
      (calls : list (call num)) :=
    runs_through calls m fs /\
    (forall row0,
        A !! 0 = Some row0 ->
        called_unless_raised (log m fs) 1 (set_sense_call maximize)) /\
    model_at_solve types A b c u l m fs /\
    (forall en o,
        en ∈ log m fs -> what en = set_sense_call o -> o = maximize) /\
    (forall en lin_expr senses rhs,
        en ∈ log m fs ->
        what en = linear_constraints_add_call lin_expr senses rhs ->
        length lin_expr = length A /\
        row_senses senses = replicate (length A) "L"%char) in
  holds (lprog int E A b c u l s q) None
        (script None "lprog.lp" A b c u l s q) /\
  holds (mip int E A b c u l varType s q) (Some varType)
        (script (Some varType) "mip.lp" A b c u l s q).
Proof.
  cbv zeta. rewrite lprog_wrapper, mip_wrapper. split_and!.
  - apply wrapper_runs_through.
  - intros row0 HA. apply wrapper_runs_through. by eapply script_second.
  - apply wrapper_model_at_solve.
  - apply wrapper_senses.
  - apply wrapper_senses.
  - apply wrapper_runs_through.
  - intros row0 HA. apply wrapper_runs_through. by eapply script_second.
  - apply wrapper_model_at_solve.
  - apply wrapper_senses.
  - apply wrapper_senses.
Qed.

End Progress.

(** ** Engines that honour the solution contract *)

Section Contract.

Context {num : Type} (int : Z -> num) (E : Engine num).
Context (within_tolerance : list num -> list num -> num -> Prop).
Context (declares : prob E -> list num -> nat -> Prop).
Context (Hc : solution_contract E within_tolerance declares).
Implicit Types (A : list (list num)) (b c u l : list num).
Implicit Types (types : option string) (filename saved : string).

Ltac track :=
  repeat match goal with
    | H0 : Cplex E = inr ?p0, H1 : set_sense E _ ?p0 = inr ?p1,
      H2 : variables_add E _ _ _ _ _ ?p1 = inr _ |- _ =>
        pose proof (declares_variables _ _ _ Hc _ _ _ _ _ _ _ _ _ H0 H1 H2);
        clear H0
    | Hd : declares ?p _ _,
      H : linear_constraints_add E _ _ _ ?p = inr _ |- _ =>
        pose proof (declares_constraints _ _ _ Hc _ _ _ _ _ _ _ Hd H); clear Hd
    | Hd : declares ?p _ _, H : set_stream E _ _ ?p = inr _ |- _ =>
        pose proof (declares_set_stream _ _ _ Hc _ _ _ _ _ _ Hd H); clear Hd
    | Hd : declares ?p _ _, H : solve E ?p = inr _ |- _ =>
        pose proof (declares_solve _ _ _ Hc _ _ _ _ Hd H); clear Hd
    | Hd : declares ?p _ _, H : write E _ ?p = inr _ |- _ =>
        pose proof (declares_write _ _ _ Hc _ _ _ _ _ _ Hd H); clear Hd
    | Hd : declares ?p _ _, H : get_values E ?p = inr _ |- _ =>
        pose proof (declared_solution _ _ _ Hc _ _ _ _ _ Hd H); clear Hd
    end.

Lemma wrapper_declared_solution types filename saved row A b c u l s q fs :
  (forall en,
      en ∈ log (wrapper int E types filename saved (row :: A) b c u l s q) fs ->
      raised en = None) ->
  exists x obj,
    outcome (wrapper int E types filename saved (row :: A) b c u l s q) fs
    = Return (x, obj) /\
    length x = length row /\
    within_tolerance c x obj /\
    exists p p' p'',
      get_values E p = inr (p', x) /\
      get_objective_value E p' = inr (p'', obj).
Proof.
  run_wrapper; finish.
  all: try (match goal with
            | H : forall en, en ∈ ?l -> raised en = None |- _ =>
                apply Forall_forall in H; decompose_Forall_hyps;
                simplify_eq/=
            end).
  all: track.
  all: match goal with H : _ /\ _ |- _ => destruct H as [Hlen Hobj] end.
  all: eexists _, _; split_and!;
    [ reflexivity
    | rewrite Hlen, length_map; apply length_seq
    | eapply Hobj; eassumption
    | eauto ].
Qed.

(** C8, as amended.  On an engine that honours [solution_contract], a
    run on a matrix with at least one row in which no engine call raises
    returns the engine's own values and objective value: one value for each
    entry of the first row of the matrix, and an objective value within
    tolerance of the sum of the [c[i] * x[i]].  When a call inside the [try]
    statement raises a [CplexError], [write] included, [([], -1)] is
    returned instead. *)
Theorem returns_declared_solution row A b c u l varType s q fs :
  let holds (m : M num (list num * num)) :=
    ((forall en, en ∈ log m fs -> raised en = None) ->
     exists x obj,
       outcome m fs = Return (x, obj) /\
       length x = length row /\
       within_tolerance c x obj /\
       exists p p' p'',
         get_values E p = inr (p', x) /\
         get_objective_value E p' = inr (p'', obj)) /\
    (forall msg,
        reports_CplexError_in_try m fs msg ->
        outcome m fs = Return ([], int (-1)%Z)) in
  holds (lprog int E (row :: A) b c u l s q) /\
  holds (mip int E (row :: A) b c u l varType s q).
Proof.
  cbv zeta. rewrite lprog_wrapper, mip_wrapper. split_and!.
  - apply wrapper_declared_solution.
  - intros msg H. by apply wrapper_CplexError_in_try in H as [? _].
  - apply wrapper_declared_solution.
  - intros msg H. by apply wrapper_CplexError_in_try in H as [? _].
Qed.

End Contract.

Lemma corner_contract text :
  solution_contract (Corner.engine text) Corner.exact Corner.declares.
Proof.
  split; unfold Corner.declares, Corner.exact; simpl.
  - intros p0 sense p1 obj ub lb types names p2 [= <-] [= <-] [= <-]. done.
  - intros p lin_expr senses rhs p' obj n H [= <-]. done.
  - intros p ch f p' obj n H [= <-]. done.
  - intros p p' obj n H [= <-]. done.
  - intros p name p' text' obj n H [= <- _]. done.
  - intros p obj n p' x [Ho Hn] [= <- <-]. split.
    + unfold Corner.point. by rewrite length_resize.
    + intros p'' v [= _ <-]. by rewrite Ho.
Qed.

Section Quiet.

Context {num : Type} (int : Z -> num) (E : Engine num).
Context (sim : prob E -> prob E -> Prop) (Hs : presentation_only E sim).
Implicit Types (A : list (list num)) (b c u l : list num).

Lemma wrapper_quiet types filename saved A b c u l s fs :
  outcome (wrapper int E types filename saved A b c u l s true) fs
  = outcome (wrapper int E types filename saved A b c u l s false) fs /\
  files_after (wrapper int E types filename saved A b c u l s true) fs
  = files_after (wrapper int E types filename saved A b c u l s false) fs /\
  printed (wrapper int E types filename saved A b c u l s true) fs
  = printed (wrapper int E types filename saved A b c u l s false) fs.
Proof. run_related E sim Hs; done. Qed.

(** C7.  On an engine whose output streams are presentation only, a call
    with [quietOpt] set and the same call with [quietOpt] unset return the
    same value or raise the same exception; they also leave the same files
    and print the same lines. *)
Theorem quiet_flag_is_presentation_only A b c u l varType s fs :
  (outcome (lprog int E A b c u l s true) fs
   = outcome (lprog int E A b c u l s false) fs /\
   files_after (lprog int E A b c u l s true) fs
   = files_after (lprog int E A b c u l s false) fs /\
   printed (lprog int E A b c u l s true) fs
   = printed (lprog int E A b c u l s false) fs) /\
  (outcome (mip int E A b c u l varType s true) fs
   = outcome (mip int E A b c u l varType s false) fs /\
   files_after (mip int E A b c u l varType s true) fs
   = files_after (mip int E A b c u l varType s false) fs /\
   printed (mip int E A b c u l varType s true) fs
   = printed (mip int E A b c u l varType s false) fs).
Proof.
  rewrite !lprog_wrapper, !mip_wrapper.
  split; apply wrapper_quiet.
Qed.

End Quiet.

(** ** Concrete runs *)

Lemma replay_presentation_only {num} fault (recorded : option (list num * num))
    text :
  presentation_only (Replay.engine fault recorded text) Replay.sim.
Proof.
  split; unfold Replay.sim; simpl.
  - intros p. done.
  - intros ch f p q H. eexists. split; [reflexivity|]. simpl. exact H.
  - intros p q (H1 & H2 & H3). destruct fault; simpl; [reflexivity|].
    rewrite H1, H2. done.
  - intros name p q H. simpl. done.
  - intros p q H. destruct recorded as [[x obj]|]; simpl; done.
  - intros p q H. destruct recorded as [[x obj]|]; simpl; done.
Qed.

Section Runs.

Import Notebook.

(** The cells of the notebooks, replayed. *)
Example lprog_recorded_run :
  outcome (lprog inject_Z feasible_lp A b c u l true true) ∅
  = Return lprog_recorded /\
  printed (lprog inject_Z feasible_lp A b c u l true true) ∅
  = ["LP saved as lprog.lp"].
Proof. split; vm_compute; reflexivity. Qed.

Example mip_recorded_run :
  outcome (mip inject_Z feasible_mip A b c u l varType true true) ∅
  = Return mip_recorded /\
  printed (mip inject_Z feasible_mip A b c u l varType true true) ∅
  = ["LP saved as mip.lp"].
Proof. split; vm_compute; reflexivity. Qed.

Example lprog_infeasible_run :
  outcome (lprog inject_Z infeasible A b_infeasible c u l true true) ∅
  = Return ([], inject_Z (-1)) /\
  printed (lprog inject_Z infeasible A b_infeasible c u l true true) ∅
  = ["LP saved as lprog.lp"; "CPLEX Error  1217: No solution exists."].
Proof. split; vm_compute; reflexivity. Qed.

Example mip_infeasible_run :
  outcome (mip inject_Z infeasible A b_infeasible c u l varType true true) ∅
  = Return ([], inject_Z (-1)) /\
  printed (mip inject_Z infeasible A b_infeasible c u l varType true true) ∅
  = ["LP saved as mip.lp"; "CPLEX Error  1217: No solution exists."].
Proof. split; vm_compute; reflexivity. Qed.

Lemma infeasible_returns_sentinel_witness :
  outcome (lprog inject_Z infeasible A b_infeasible c u l true true) ∅
  = Return ([], inject_Z (-1)) /\
  outcome (mip inject_Z infeasible A b_infeasible c u l varType true true) ∅
  = Return ([], inject_Z (-1)).
Proof.
  pose proof (infeasible_returns_sentinel inject_Z infeasible A b_infeasible
                c u l varType true true ∅
                "CPLEX Error  1217: No solution exists.") as [Hl Hm].
  split.
  - apply Hl.
    exists {| what := get_values_call; raised := Some Replay.no_solution |}.
    split_and!; [in_log | reflexivity | reflexivity].
  - apply Hm.
    exists {| what := get_values_call; raised := Some Replay.no_solution |}.
    split_and!; [in_log | reflexivity | reflexivity].
Defined.

Lemma quiet_flag_is_presentation_only_witness :
  outcome (lprog inject_Z feasible_lp A b c u l true true) ∅
  = outcome (lprog inject_Z feasible_lp A b c u l true false) ∅ /\
  outcome (mip inject_Z infeasible A b_infeasible c u l varType true true) ∅
  = outcome (mip inject_Z infeasible A b_infeasible c u l varType true false) ∅.
Proof.
  split.
  - apply (quiet_flag_is_presentation_only inject_Z feasible_lp Replay.sim
             (replay_presentation_only _ _ _) A b c u l varType true ∅).
  - apply (quiet_flag_is_presentation_only inject_Z infeasible Replay.sim
             (replay_presentation_only _ _ _) A b_infeasible c u l varType
             true ∅).
Defined.

(** A [TypeError] raised by [solve], inside the [try] statement, reaches the
    caller. *)
Lemma only_CplexError_is_caught_witness :
  outcome (lprog inject_Z broken A b c u l true true) ∅
  = Raise (Py TypeError) /\
  outcome (mip inject_Z broken A b c u l varType true true) ∅
  = Raise (Py TypeError).
Proof.
  pose proof (only_CplexError_is_caught inject_Z broken A b c u l varType
                true true ∅) as ([_ Hl] & [_ Hm] & _).
  split.
  - apply (Hl {| what := solve_call; raised := Some TypeError |} TypeError);
      [in_log | reflexivity | reflexivity].
  - apply (Hm {| what := solve_call; raised := Some TypeError |} TypeError);
      [in_log | reflexivity | reflexivity].
Defined.

Lemma empty_matrix_IndexError_witness :
  outcome (lprog inject_Z feasible_lp [] b c u l true true) ∅
  = Raise (Py IndexError) /\
  exists cl pe,
    last (log (mip inject_Z broken A b c u l varType true true) ∅)
    = Some {| what := cl; raised := Some pe |} /\
    Py TypeError = Py pe.
Proof.
  pose proof (empty_matrix_IndexError inject_Z feasible_lp b c u l varType
                true true ∅) as (H0 & _ & _).
  pose proof (empty_matrix_IndexError inject_Z broken b c u l varType
                true true ∅) as (_ & _ & H1).
  split.
  - unfold outcome. rewrite H0. reflexivity.
  - apply (proj2 (H1 [-1; 1; 1]%Q [[1; -3; 1]%Q])). vm_compute. reflexivity.
Defined.

Lemma variable_names_are_x_index_witness :
  exists row,
    A !! 0 = Some row /\
    ["x0"; "x1"; "x2"] = map (fun i => "x" +:+ str i) (range (length row)).
Proof.
  pose proof (variable_names_are_x_index inject_Z feasible_lp A b c u l
                varType true true ∅) as [H _].
  apply (H {| what := variables_add_call c u l None ["x0"; "x1"; "x2"];
              raised := None |} c u l None ["x0"; "x1"; "x2"]);
    [in_log | reflexivity].
Defined.

Lemma returns_engine_solution_witness :
  exists p p' p'',
    get_values feasible_mip p = inr (p', fst mip_recorded) /\
    get_objective_value feasible_mip p' = inr (p'', snd mip_recorded).
Proof.
  pose proof (returns_engine_solution inject_Z feasible_mip A b c u l
                varType true true ∅) as [_ H].
  apply H; [vm_compute; reflexivity|].
  intros en Hen. apply list_elem_of_In in Hen. vm_compute in Hen.
  repeat (destruct Hen as [<-|Hen]; [reflexivity|]). destruct Hen.
Defined.

Lemma engine_protocol_witness :
  map what (log (lprog inject_Z feasible_lp A b c u l true true) ∅)
  = script None "lprog.lp" A b c u l true true /\
  map what (log (mip inject_Z feasible_mip A b c u l varType false false) ∅)
  = script (Some varType) "mip.lp" A b c u l false false.
Proof.
  split.
  - apply (proj1 (engine_protocol inject_Z feasible_lp A b c u l varType
                    true true ∅)). all_returned.
  - apply (proj2 (engine_protocol inject_Z feasible_mip A b c u l varType
                    false false ∅)). all_returned.
Defined.

Lemma only_last_call_raises_witness :
  raised (returned (solve_call (num:=Q))) = None /\
  last (log (lprog inject_Z infeasible A b_infeasible c u l false false) ∅)
  = Some {| what := get_values_call; raised := Some Replay.no_solution |}.
Proof.
  split; [|vm_compute; reflexivity].
  apply (proj1 (only_last_call_raises inject_Z infeasible A b_infeasible c u l
                  varType false false ∅)).
  in_log.
Defined.

Lemma translation_of_any_matrix_witness :
  exists row0,
    A_ragged !! 0 = Some row0 /\
    [([0; 1; 2], [1; 2; 3]%Q); ([0; 1; 2], [4%Q])]
    = map (fun row => (range (length row0), row)) A_ragged.
Proof.
  apply (proj1 (translation_of_any_matrix inject_Z feasible_lp A_ragged b c u l
                  varType true true ∅)
           {| what := linear_constraints_add_call
                        [([0; 1; 2], [1; 2; 3]%Q); ([0; 1; 2], [4%Q])]
                        ["LL"] b;
              raised := Some Replay.inconsistent |}
           _ ["LL"] b); [in_log | reflexivity].
Defined.

Lemma quiet_sets_the_four_streams_witness :
  take 4 (drop 4 (log (lprog inject_Z feasible_lp A b c u l true true) ∅))
  = map returned quiet_calls /\
  log (mip inject_Z feasible_mip A b c u l varType true false) ∅ !! 4
  = Some (returned solve_call).
Proof.
  pose proof (quiet_sets_the_four_streams inject_Z feasible_lp A b c u l
                varType true ∅) as [(Hq & _) _].
  pose proof (quiet_sets_the_four_streams inject_Z feasible_mip A b c u l
                varType true ∅) as [_ (_ & _ & Hu)].
  split.
  - apply (Hq (returned solve_call)); [in_log | reflexivity].
  - apply (Hu (returned solve_call)); [in_log | reflexivity].
Defined.

Lemma touches_only_its_file_witness :
  files (snd (lprog inject_Z feasible_lp A b c u l true true
                {| calls := []; files := {["notes.txt" := "keep"]};
                   stdout := [] |})) !! "notes.txt"
  = Some "keep" /\
  files (snd (mip inject_Z feasible_mip A b c u l varType false true
                {| calls := []; files := {["mip.lp" := "old"]};
                   stdout := [] |}))
  = {["mip.lp" := "old"]}.
Proof.
  pose proof (touches_only_its_file inject_Z feasible_lp A b c u l varType
                true true
                {| calls := []; files := {["notes.txt" := "keep"]};
                   stdout := [] |}) as [[Hl _] _].
  pose proof (touches_only_its_file inject_Z feasible_mip A b c u l varType
                false true
                {| calls := []; files := {["mip.lp" := "old"]};
                   stdout := [] |}) as [_ [_ Hm]].
  split.
  - rewrite Hl; [reflexivity | discriminate].
  - rewrite Hm; [reflexivity | vm_compute; reflexivity].
Defined.

(** C1, counterexample.  The right-hand side has one entry too few: no
    [ShapeError] on any engine; on an engine
    that accepts the arguments the run goes on to [solve], writes the file
    and returns the engine's solution. *)
Lemma short_rhs_is_not_ShapeError :
  mismatched A b_short c u l /\
  ~ (exists E,
        outcome (lprog inject_Z E A b_short c u l true true) ∅
        = Raise ShapeError) /\
  ~ (exists E,
        outcome (mip inject_Z E A b_short c u l varType true true) ∅
        = Raise ShapeError) /\
  (returned solve_call
     ∈ log (lprog inject_Z accepting_lp A b_short c u l true true) ∅ /\
   files_after (lprog inject_Z accepting_lp A b_short c u l true true) ∅
     !! "lprog.lp" = Some lp_text /\
   outcome (lprog inject_Z accepting_lp A b_short c u l true true) ∅
   = Return lprog_recorded) /\
  (returned solve_call
     ∈ log (mip inject_Z accepting_mip A b_short c u l varType true true) ∅ /\
   files_after (mip inject_Z accepting_mip A b_short c u l varType true true) ∅
     !! "mip.lp" = Some lp_text /\
   outcome (mip inject_Z accepting_mip A b_short c u l varType true true) ∅
   = Return mip_recorded).
Proof.
  split_and!.
  - right. left. vm_compute. lia.
  - intros [E H]. revert H. rewrite lprog_wrapper.
    apply wrapper_never_validation_error.
  - intros [E H]. revert H. rewrite mip_wrapper.
    apply wrapper_never_validation_error.
  - in_log.
  - vm_compute. reflexivity.
  - vm_compute. reflexivity.
  - in_log.
  - vm_compute. reflexivity.
  - vm_compute. reflexivity.
Qed.

Lemma no_dimension_check_witness :
  called_unless_raised
    (log (lprog inject_Z accepting_lp A b_short c u l true true) ∅) 3
    (linear_constraints_add_call lin_expr_A ["LL"] b_short) /\
  outcome (lprog inject_Z feasible_lp A b_short c u l true true) ∅
  = Raise (Py Replay.inconsistent) /\
  files_after (mip inject_Z feasible_mip A b_short c u l varType true true) ∅
  = ∅.
Proof.
  pose proof (no_dimension_check inject_Z accepting_lp A b_short c u l varType
                true true ∅) as [(_ & Hr & _) _].
  pose proof (no_dimension_check inject_Z feasible_lp A b_short c u l varType
                true true ∅) as [(_ & _ & _ & Hl & _) _].
  pose proof (no_dimension_check inject_Z feasible_mip A b_short c u l varType
                true true ∅) as [_ (_ & _ & _ & Hm & _)].
  split_and!.
  - apply Hr. reflexivity.
  - refine (proj1 (Hl {| what := linear_constraints_add_call lin_expr_A ["LL"]
                                   b_short;
                         raised := Some Replay.inconsistent |}
                      Replay.inconsistent _ eq_refl eq_refl)).
    in_log.
  - refine (proj2 (proj2 (Hm {| what := linear_constraints_add_call lin_expr_A
                                          ["LL"] b_short;
                                raised := Some Replay.inconsistent |}
                             Replay.inconsistent _ eq_refl eq_refl))).
    in_log.
Defined.

(** C3, counterexample.  [solve] returned and [saveOpt] is set, yet the file
    cannot be written: no file, and the value returned is [([], -1)]. *)
Lemma solve_returned_but_no_file :
  (returned solve_call
     ∈ log (lprog inject_Z unwritable_lp A b c u l true true) ∅ /\
   files_after (lprog inject_Z unwritable_lp A b c u l true true) ∅
     !! "lprog.lp" = None /\
   outcome (lprog inject_Z unwritable_lp A b c u l true true) ∅
   = Return ([], inject_Z (-1))) /\
  (returned solve_call
     ∈ log (mip inject_Z unwritable_mip A b c u l varType true true) ∅ /\
   files_after (mip inject_Z unwritable_mip A b c u l varType true true) ∅
     !! "mip.lp" = None /\
   outcome (mip inject_Z unwritable_mip A b c u l varType true true) ∅
   = Return ([], inject_Z (-1))).
Proof. split_and!; first [in_log | vm_compute; reflexivity]. Qed.

Lemma persist_writes_after_solve_witness :
  (exists text,
      files_after (lprog inject_Z infeasible A b_infeasible c u l true true) ∅
      = <["lprog.lp" := text]> ∅) /\
  files_after (lprog inject_Z unwritable_lp A b c u l true true) ∅ = ∅ /\
  outcome (lprog inject_Z unwritable_lp A b c u l true true) ∅
  = Return ([], inject_Z (-1)) /\
  files_after (mip inject_Z feasible_mip A b c u l varType false true) ∅ = ∅.
Proof.
  pose proof (persist_writes_after_solve inject_Z infeasible A b_infeasible
                c u l varType true ∅) as [(_ & Hw & _) _].
  pose proof (persist_writes_after_solve inject_Z unwritable_lp A b c u l
                varType true ∅) as [(_ & _ & Hf & _) _].
  pose proof (persist_writes_after_solve inject_Z feasible_mip A b c u l
                varType true ∅) as [_ (_ & _ & _ & _ & Hn)].
  destruct (Hf {| what := write_call "lprog.lp"; raised := Some write_error |}
               write_error) as [Hfiles Hout];
    [in_log | reflexivity | reflexivity |].
  split_and!.
  - destruct (Hw 8) as (r & Hr & Ht); [vm_compute; reflexivity|].
    apply Ht. vm_compute in Hr. congruence.
  - exact Hfiles.
  - by eapply Hout.
  - exact Hn.
Defined.

(** C4, counterexample.  Tag sequences that are too short or hold a
    character that is no tag: no [TypeTagError] on any engine, the engine is
    called, and on an engine that accepts the arguments the run goes on to
    [solve] and returns the engine's solution. *)
Lemma bad_type_tags_is_not_TypeTagError :
  bad_type_tags A varType_short /\
  bad_type_tags A varType_unknown /\
  ~ (exists E,
        outcome (mip inject_Z E A b c u l varType_short true true) ∅
        = Raise TypeTagError) /\
  ~ (exists E,
        outcome (mip inject_Z E A b c u l varType_unknown true true) ∅
        = Raise TypeTagError) /\
  ~ (exists E,
        log (mip inject_Z E A b c u l varType_short true true) ∅ = []) /\
  (returned solve_call
     ∈ log (mip inject_Z accepting_mip A b c u l varType_short true true) ∅ /\
   outcome (mip inject_Z accepting_mip A b c u l varType_short true true) ∅
   = Return mip_recorded) /\
  (returned solve_call
     ∈ log (mip inject_Z accepting_mip A b c u l varType_unknown true true) ∅ /\
   outcome (mip inject_Z accepting_mip A b c u l varType_unknown true true) ∅
   = Return mip_recorded).
Proof.
  split_and!.
  - left. vm_compute. lia.
  - right. vm_compute. reflexivity.
  - intros [E H]. revert H. rewrite mip_wrapper.
    apply wrapper_never_validation_error.
  - intros [E H]. revert H. rewrite mip_wrapper.
    apply wrapper_never_validation_error.
  - intros [E H].
    destruct (wrapper_first_call inject_Z E (Some varType_short) "mip.lp"
                "LP saved as mip.lp" [-1; 1; 1]%Q [[1; -3; 1]%Q] b c u l
                true true ∅) as [r Hr].
    rewrite mip_wrapper in H. unfold A in H. rewrite H in Hr. discriminate.
  - in_log.
  - vm_compute. reflexivity.
  - in_log.
  - vm_compute. reflexivity.
Qed.

Lemma mip_hands_type_tags_to_engine_witness :
  called_unless_raised
    (log (mip inject_Z accepting_mip A b c u l varType_unknown true true) ∅) 2
    (variables_add_call c u l (Some varType_unknown) ["x0"; "x1"; "x2"]) /\
  outcome (mip inject_Z feasible_mip A b c u l varType_short true true) ∅
  = Raise (Py Replay.inconsistent) /\
  files_after (mip inject_Z feasible_mip A b c u l varType_short true true) ∅
  = ∅.
Proof.
  pose proof (mip_hands_type_tags_to_engine inject_Z accepting_mip A b c u l
                varType_unknown true true ∅) as (_ & _ & Hc & _).
  pose proof (mip_hands_type_tags_to_engine inject_Z feasible_mip A b c u l
                varType_short true true ∅) as (_ & _ & _ & _ & H & _).
  destruct (H {| what := variables_add_call c u l (Some varType_short)
                           ["x0"; "x1"; "x2"];
                 raised := Some Replay.inconsistent |} Replay.inconsistent)
    as (Ho & _ & Hf); [in_log | reflexivity | reflexivity |].
  split_and!; [exact (Hc [-1; 1; 1]%Q eq_refl) | exact Ho | exact Hf].
Defined.

Lemma dense_translation_witness :
  well_shaped 3 A /\
  exists rows,
    dense_rows 3 A rows /\
    called_unless_raised
      (log (lprog inject_Z feasible_lp A b c u l true true) ∅) 3
      (linear_constraints_add_call rows ["LL"] b).
Proof.
  assert (HA : well_shaped 3 A) by (repeat constructor).
  split; [exact HA|].
  destruct (dense_translation inject_Z feasible_lp 3 A b c u l varType
              true true ∅ HA) as (rows & Hd & _ & [Hl _] & _).
  exists rows. split; [exact Hd|]. by apply Hl.
Defined.

Lemma sense_is_maximize_and_rows_are_L_witness :
  log (mip inject_Z feasible_mip A b c u l varType true true) ∅ !! 1
  = Some (returned (set_sense_call maximize)) /\
  row_senses ["LL"] = ["L"; "L"]%char.
Proof.
  pose proof (sense_is_maximize_and_rows_are_L inject_Z feasible_mip A b c u l
                varType true true ∅) as [_ (_ & _ & Hs & _ & H)].
  split.
  - apply (Hs (returned solve_call)); [in_log | reflexivity].
  - apply (H {| what := linear_constraints_add_call lin_expr_A ["LL"] b;
                raised := None |} lin_expr_A ["LL"] b);
      [in_log | reflexivity].
Defined.

Lemma returns_declared_solution_witness :
  exists x obj,
    outcome (lprog inject_Z corner A b c u l true true) ∅ = Return (x, obj) /\
    length x = 3 /\ Corner.exact c x obj.
Proof.
  destruct (proj1 (proj1 (returns_declared_solution inject_Z corner
              Corner.exact Corner.declares (corner_contract _)
              [-1; 1; 1]%Q [[1; -3; 1]%Q] b c u l varType true true ∅)))
    as (x & obj & Ho & Hl & Hv & _).
  - all_returned.
  - exists x, obj. done.
Defined.

(** C8, counterexample.  The engine has a solution and hands it over when
    [saveOpt] is unset; with [saveOpt] set and a file that cannot be written,
    the same engine's solution is never asked for and [([], -1)] is returned:
    no value for any variable, and an objective value that is not the sum of
    the [c[i] * x[i]]. *)
Lemma failed_write_hides_solution :
  outcome (lprog inject_Z unwritable_lp A b c u l false true) ∅
  = Return lprog_recorded /\
  outcome (lprog inject_Z unwritable_lp A b c u l true true) ∅
  = Return ([], inject_Z (-1)) /\
  outcome (mip inject_Z unwritable_mip A b c u l varType false true) ∅
  = Return mip_recorded /\
  outcome (mip inject_Z unwritable_mip A b c u l varType true true) ∅
  = Return ([], inject_Z (-1)) /\
  length (A := Q) [] <> length (default [] (head A)) /\
  ~ Corner.exact c [] (inject_Z (-1)).
Proof.
  split_and!; try (vm_compute; reflexivity).
  - vm_compute. lia.
  - vm_compute. discriminate.
Qed.

End Runs.
